(** * Slack native streaming: delta resolver, stream session, delivery router

    Shallow embedding of [src/slack/streaming.ts] and of the streaming part
    of [dispatchPreparedSlackMessage] (the Slack message dispatcher), with
    the properties of the delivery specification proved over it.

    JavaScript strings are sequences of UTF-16 code units; they are
    embedded as lists of code units.  Asynchronous functions are embedded
    in a state-and-exception monad that also records, in order, every call
    made to the chat transport.  *)

From Stdlib Require Import List NArith ZArith Bool Arith Lia Ascii.
From Stdlib Require String.
Import (notations) String.
Import ListNotations.

Set Implicit Arguments.

(* ===================================================================== *)
(** ** JavaScript strings *)
(* ===================================================================== *)

Module JS.

(** One UTF-16 code unit. *)
Definition code_unit := N.

Definition jsstring := list code_unit.

(** An ASCII literal as a JavaScript string. *)
Definition lit (s : String.string) : jsstring :=
  List.map N_of_ascii (String.list_ascii_of_string s).
Arguments lit s%_string.

(** [Boolean(s)] for a string: only the empty string is falsy. *)
Definition truthy (s : jsstring) : bool :=
  match s with
  | [] => false
  | _ :: _ => true
  end.

(** [a === b] on strings. *)
Fixpoint strictEquals (a b : jsstring) : bool :=
  match a, b with
  | [], [] => true
  | x :: a', y :: b' => N.eqb x y && strictEquals a' b'
  | _, _ => false
  end.

(** [s.startsWith(p)]. *)
Fixpoint startsWith (s p : jsstring) {struct p} : bool :=
  match p, s with
  | [], _ => true
  | y :: p', x :: s' => N.eqb x y && startsWith s' p'
  | _ :: _, [] => false
  end.

(** [s.slice(n)] for [0 <= n]. *)
Definition slice (s : jsstring) (n : nat) : jsstring := skipn n s.

(** The line feed of a template literal. *)
Definition LF : code_unit := 10%N.

(** WhiteSpace and LineTerminator code points of ECMAScript, the
    characters [String.prototype.trim] strips. *)
Definition isWhiteSpace (c : code_unit) : bool :=
  (N.leb 9 c && N.leb c 13)          (* TAB LF VT FF CR *)
  || N.eqb c 32                      (* SP *)
  || N.eqb c 160                     (* NBSP *)
  || N.eqb c 5760                    (* U+1680 *)
  || (N.leb 8192 c && N.leb c 8202)  (* U+2000 .. U+200A *)
  || N.eqb c 8232 || N.eqb c 8233    (* LS PS *)
  || N.eqb c 8239 || N.eqb c 8287    (* U+202F U+205F *)
  || N.eqb c 12288                   (* U+3000 *)
  || N.eqb c 65279.                  (* U+FEFF *)

Fixpoint trimStart (s : jsstring) : jsstring :=
  match s with
  | [] => []
  | c :: s' => if isWhiteSpace c then trimStart s' else s
  end.

Definition trimEnd (s : jsstring) : jsstring := rev (trimStart (rev s)).

(** [s.trim()]. *)
Definition trim (s : jsstring) : jsstring := trimEnd (trimStart s).

End JS.

Import JS.

(* ===================================================================== *)
(** ** Data model *)
(* ===================================================================== *)

(** One unit of output of the response generator. *)
Record ReplyPayload := {
  text : option jsstring;
  mediaUrl : option jsstring;
  mediaUrls : option (list jsstring)
}.

(** The tag of a reply event. *)
Inductive ReplyDispatchKind := KindTool | KindBlock | KindFinal.

Inductive ReplyToMode := ModeOff | ModeFirst | ModeAll.

(** [SlackStreamSession] of [streaming.ts].  The [streamer] handle is
    identified by the position of the [chatStream] call that made it. *)
Record SlackStreamSession := {
  streamer : nat;
  channel : jsstring;
  threadTs : jsstring;
  stopped : bool
}.

Definition markStopped (s : SlackStreamSession) : SlackStreamSession :=
  {| streamer := streamer s; channel := channel s;
     threadTs := threadTs s; stopped := true |}.

(** The calls the code makes on the chat transport. *)
Inductive TransportCall :=
| ChatStream (channel thread_ts : jsstring) (buffer_size : option N)
| StreamerAppend (streamer : nat) (markdown_text : jsstring)
| StreamerStop (streamer : nat) (markdown_text : option jsstring)
| DeliverReplies (payload : ReplyPayload) (replyThreadTs : option jsstring).

(** Every transport call made so far, oldest first. *)
Definition Trace := list TransportCall.

(* ===================================================================== *)
(** ** Asynchronous code: state, exceptions and the transport trace *)
(* ===================================================================== *)

Inductive Completion (A : Type) : Type :=
| Normal (a : A)
| Throw.
Arguments Throw {A}.

(** An [async] function over mutable state [St]. *)
Definition Async (St A : Type) : Type :=
  St -> Trace -> Completion A * St * Trace.

Definition ret {St A} (a : A) : Async St A :=
  fun st tr => (Normal a, st, tr).

Definition bind {St A B} (m : Async St A) (k : A -> Async St B) : Async St B :=
  fun st tr =>
    match m st tr with
    | (Normal a, st', tr') => k a st' tr'
    | (Throw, st', tr') => (Throw, st', tr')
    end.

Declare Scope async_scope.
Delimit Scope async_scope with async.
Notation "x <- m ;; k" := (bind m (fun x => k))
  (at level 100, m at next level, right associativity) : async_scope.
Notation "m ;;; k" := (bind m (fun _ => k))
  (at level 100, right associativity) : async_scope.
Open Scope async_scope.

Definition get {St} : Async St St := fun st tr => (Normal st, st, tr).

Definition modify {St} (f : St -> St) : Async St unit :=
  fun st tr => (Normal tt, f st, tr).

Definition throw {St A} : Async St A := fun st tr => (Throw, st, tr).

(** [try { body } catch { handler }]. *)
Definition tryCatch {St A} (body handler : Async St A) : Async St A :=
  fun st tr =>
    match body st tr with
    | (Normal a, st', tr') => (Normal a, st', tr')
    | (Throw, st', tr') => handler st' tr'
    end.

(** [try { body } finally { finalizer }]: the finalizer runs on both
    completions; the completion of the body is kept unless the finalizer
    itself throws. *)
Definition tryFinally {St A} (body : Async St A) (finalizer : Async St unit)
  : Async St A :=
  fun st tr =>
    match body st tr with
    | (r, st', tr') =>
        match finalizer st' tr' with
        | (Normal _, st'', tr'') => (r, st'', tr'')
        | (Throw, st'', tr'') => (Throw, st'', tr'')
        end
    end.

(** Run code that mutates an object [o] held in a local variable; the
    object as the code left it is returned with a normal completion. *)
Definition local {St Obj A} (o : Obj) (m : Async Obj A) : Async St (A * Obj) :=
  fun st tr =>
    match m o tr with
    | (Normal a, o', tr') => (Normal (a, o'), st, tr')
    | (Throw, _, tr') => (Throw, st, tr')
    end.

(** Run code that mutates an object [o] referenced from the state; the
    mutation is visible through the state on both completions. *)
Definition zoom {St Obj A} (o : Obj) (write : Obj -> St -> St) (m : Async Obj A)
  : Async St A :=
  fun st tr =>
    match m o tr with
    | (r, o', tr') => (r, write o' st, tr')
    end.

(* ===================================================================== *)
(** ** Stream session ([streaming.ts]) *)
(* ===================================================================== *)

Section StreamSession.

(** The transport: whether a call throws, given the calls made before. *)
Variable throws : Trace -> TransportCall -> bool.

(** A call on the transport that returns nothing of interest. *)
Definition transport {St} (c : TransportCall) : Async St unit :=
  fun st tr => (if throws tr c then Throw else Normal tt, st, tr ++ [c]).

(** [client.chatStream({...})]: returns a fresh streamer handle. *)
Definition chatStream {St} (channel thread_ts : jsstring) (buffer_size : option N)
  : Async St nat :=
  fun st tr =>
    let c := ChatStream channel thread_ts buffer_size in
    (if throws tr c then Throw else Normal (List.length tr), st, tr ++ [c]).

(** [appendSlackStream({ session, text })].  The session is the state. *)
Definition appendSlackStream (text : jsstring) : Async SlackStreamSession unit :=
  session <- get ;;
  if negb (truthy text) || stopped session then ret tt
  else transport (StreamerAppend (streamer session) text).

(** The argument of the stop call:
    [params.text ? { markdown_text: params.text } : undefined]. *)
Definition finalTextOf (text : option jsstring) : option jsstring :=
  match text with
  | Some t => if truthy t then Some t else None
  | None => None
  end.

(** [stopSlackStream({ session, text })]. *)
Definition stopSlackStream (text : option jsstring) : Async SlackStreamSession unit :=
  session <- get ;;
  if stopped session then ret tt
  else
    modify markStopped ;;;
    transport (StreamerStop (streamer session) (finalTextOf text)).

(** [startSlackStream({ client, channel, threadTs, text, bufferSize })]. *)
Definition startSlackStream {St} (channel threadTs : jsstring)
    (text : option jsstring) (bufferSize : option N)
  : Async St SlackStreamSession :=
  streamer <- chatStream channel threadTs bufferSize ;;
  let session := {| streamer := streamer; channel := channel;
                    threadTs := threadTs; stopped := false |} in
  match text with
  | Some t =>
      if truthy t
      then r <- local session (appendSlackStream t) ;; ret (snd r)
      else ret session
  | None => ret session
  end.

End StreamSession.

(* ===================================================================== *)
(** ** Thread-target planner *)
(* ===================================================================== *)

Definition isSome {A} (x : option A) : bool :=
  match x with
  | Some _ => true
  | None => false
  end.

(** [Boolean(x)] for a value of type [string | undefined]. *)
Definition truthyOpt (x : option jsstring) : bool :=
  match x with
  | Some s => truthy s
  | None => false
  end.

(** Modelled from the spec: [createSlackReplyDeliveryPlan] and
    [resolveSlackThreadTs] are imported from [replies.ts], which is not
    among the sources; the plan below follows the specification of the
    thread-target planner (the mode, the incoming thread identifier, the
    identifier of the triggering message as fallback anchor, and the
    shared [hasReplied] flag). *)
Record ReplyDeliveryPlan := {
  replyToMode : ReplyToMode;
  incomingThreadTs : option jsstring;
  messageTs : option jsstring;
  hasReplied : bool
}.

(** Modelled from the spec: the thread identifier of a response is the
    incoming thread identifier, falling back to the identifier of the
    triggering message when the message started a new thread. *)
Definition threadIdentifier (incoming message : option jsstring) : option jsstring :=
  match incoming with
  | Some t => Some t
  | None => message
  end.

(** Modelled from the spec: [resolveSlackThreadTs] of [replies.ts]: mode
    [off] resolves nothing, mode [all] always resolves the thread
    identifier, mode [first] resolves it only while [hasReplied] is
    false. *)
Definition resolveSlackThreadTs (mode : ReplyToMode)
    (incoming message : option jsstring) (replied : bool) : option jsstring :=
  match mode with
  | ModeOff => None
  | ModeAll => threadIdentifier incoming message
  | ModeFirst => if replied then None else threadIdentifier incoming message
  end.

(** Modelled from the spec: [replyPlan.nextThreadTs()], a pure function
    of the current state of the plan. *)
Definition nextThreadTs (p : ReplyDeliveryPlan) : option jsstring :=
  resolveSlackThreadTs (replyToMode p) (incomingThreadTs p) (messageTs p)
    (hasReplied p).

(** Modelled from the spec: [replyPlan.markSent()] sets [hasReplied]. *)
Definition markSent (p : ReplyDeliveryPlan) : ReplyDeliveryPlan :=
  {| replyToMode := replyToMode p; incomingThreadTs := incomingThreadTs p;
     messageTs := messageTs p; hasReplied := true |}.

(* ===================================================================== *)
(** ** Delivery router ([dispatchPreparedSlackMessage]) *)
(* ===================================================================== *)

(** The mutable variables the closures of one dispatch share:
    [replyPlan] (with [hasRepliedRef]), [streamSession], [streamFailed]
    and [streamedText]. *)
Record RouterState := {
  replyPlan : ReplyDeliveryPlan;
  streamSession : option SlackStreamSession;
  streamFailed : bool;
  streamedText : jsstring
}.

Definition setReplyPlan (p : ReplyDeliveryPlan) (st : RouterState) : RouterState :=
  {| replyPlan := p; streamSession := streamSession st;
     streamFailed := streamFailed st; streamedText := streamedText st |}.

Definition setStreamSession (s : option SlackStreamSession) (st : RouterState)
  : RouterState :=
  {| replyPlan := replyPlan st; streamSession := s;
     streamFailed := streamFailed st; streamedText := streamedText st |}.

Definition setStreamFailed (b : bool) (st : RouterState) : RouterState :=
  {| replyPlan := replyPlan st; streamSession := streamSession st;
     streamFailed := b; streamedText := streamedText st |}.

Definition setStreamedText (t : jsstring) (st : RouterState) : RouterState :=
  {| replyPlan := replyPlan st; streamSession := streamSession st;
     streamFailed := streamFailed st; streamedText := t |}.

(** [hasMedia(payload)]. *)
Definition hasMedia (payload : ReplyPayload) : bool :=
  truthyOpt (mediaUrl payload)
  || Nat.ltb 0 (match mediaUrls payload with
                | Some l => List.length l
                | None => 0
                end).

(** The body of [resolveStreamDelta]: from the tracked snapshot and the
    next text, the delta to append and the snapshot tracked afterwards. *)
Definition resolveDelta (streamed nextText : jsstring) : jsstring * jsstring :=
  if negb (truthy streamed) then (nextText, nextText)
  else if strictEquals nextText streamed then ([], streamed)
  else if startsWith nextText streamed
       then (slice nextText (List.length streamed), nextText)
  else if startsWith streamed nextText then ([], nextText)
  else (LF :: nextText, streamed ++ LF :: nextText).

(** [resolveStreamDelta(nextText)], on the variable [streamedText]. *)
Definition resolveStreamDelta (nextText : jsstring) : Async RouterState jsstring :=
  st <- get ;;
  let r := resolveDelta (streamedText st) nextText in
  modify (setStreamedText (snd r)) ;;;
  ret (fst r).

(** What one dispatch is given: the account configuration and the
    incoming message. *)
Record DispatchInput := {
  configStreaming : option bool;       (* account.config.streaming *)
  messageChannel : jsstring;           (* message.channel *)
  inputReplyToMode : ReplyToMode;      (* ctx.replyToMode *)
  messageThreadTs : option jsstring;   (* message.thread_ts *)
  messageOwnTs : option jsstring       (* message.ts ?? message.event_ts *)
}.

(** The state in which the first reply event is handled. *)
Definition initialState (d : DispatchInput) : RouterState :=
  {| replyPlan := {| replyToMode := inputReplyToMode d;
                     incomingThreadTs := messageThreadTs d;
                     messageTs := messageOwnTs d;
                     hasReplied := false |};
     streamSession := None;
     streamFailed := false;
     streamedText := [] |}.

(** The constant [useStreaming] of one dispatch. *)
Definition useStreaming (d : DispatchInput) : bool :=
  let streamThreadHint :=
    resolveSlackThreadTs (inputReplyToMode d) (messageThreadTs d)
      (messageOwnTs d) false in
  match configStreaming d with
  | Some true => truthyOpt streamThreadHint
  | _ => false
  end.

Definition isToolKind (kind : ReplyDispatchKind) : bool :=
  match kind with
  | KindTool => true
  | _ => false
  end.

Section Router.

Variable throws : Trace -> TransportCall -> bool.

(** [isSilentReplyText(text, SILENT_REPLY_TOKEN)], imported from
    [auto-reply/tokens.ts]. *)
Variable isSilentReplyText : jsstring -> bool.

Variable d : DispatchInput.

(** A session function called on the object [streamSession] refers to.
    The call sites are guarded by a null test; on [null] the property
    access of the callee throws. *)
Definition onStreamSession {A} (m : Async SlackStreamSession A)
  : Async RouterState A :=
  st <- get ;;
  match streamSession st with
  | Some session => zoom session (fun s => setStreamSession (Some s)) m
  | None => throw
  end.

Definition stopStreamIfActive : Async RouterState unit :=
  st <- get ;;
  if negb (isSome (streamSession st)) then ret tt
  else
    tryFinally
      (tryCatch
         (onStreamSession (stopSlackStream throws None))
         (modify (setStreamFailed true)))
      (modify (fun st => setStreamedText [] (setStreamSession None st))).

Definition deliverNormal (payload : ReplyPayload) (replyThreadTs : option jsstring)
  : Async RouterState unit :=
  transport throws (DeliverReplies payload replyThreadTs) ;;;
  modify (fun st => setReplyPlan (markSent (replyPlan st)) st).

(** [replyThreadTs?.trim() || undefined]. *)
Definition effectiveThreadTsOf (replyThreadTs : option jsstring) : option jsstring :=
  match replyThreadTs with
  | Some t => if truthy (trim t) then Some (trim t) else None
  | None => None
  end.

(** [payload.text?.trim() ?? ""]. *)
Definition textOf (payload : ReplyPayload) : jsstring :=
  match text payload with
  | Some t => trim t
  | None => []
  end.

(** The condition [canStreamText] for a payload in a state. *)
Definition canStreamText (st : RouterState) (payload : ReplyPayload)
    (kind : ReplyDispatchKind) : bool :=
  useStreaming d
  && negb (streamFailed st)
  && negb (isToolKind kind)
  && negb (hasMedia payload)
  && truthyOpt (effectiveThreadTsOf (nextThreadTs (replyPlan st)))
  && truthy (textOf payload)
  && negb (isSilentReplyText (textOf payload)).

(** [!streamSession || streamSession.threadTs !== effectiveThreadTs]. *)
Definition needsNewSession (st : RouterState) (effectiveThreadTs : jsstring) : bool :=
  match streamSession st with
  | None => true
  | Some session => negb (strictEquals (threadTs session) effectiveThreadTs)
  end.

Definition deliverWithOptionalStreaming (payload : ReplyPayload)
    (kind : ReplyDispatchKind) : Async RouterState unit :=
  st <- get ;;
  let replyThreadTs := nextThreadTs (replyPlan st) in
  let effectiveThreadTs := effectiveThreadTsOf replyThreadTs in
  let text := textOf payload in
  if negb (canStreamText st payload kind) then
    stopStreamIfActive ;;;
    deliverNormal payload replyThreadTs
  else
    match effectiveThreadTs with
    | None =>
        stopStreamIfActive ;;;
        deliverNormal payload replyThreadTs
    | Some effectiveThreadTs =>
        tryCatch
          (st <- get ;;
           (if needsNewSession st effectiveThreadTs then
              stopStreamIfActive ;;;
              session <- startSlackStream throws (messageChannel d)
                           effectiveThreadTs (Some text) None ;;
              modify (setStreamSession (Some session)) ;;;
              modify (setStreamedText text)
            else
              delta <- resolveStreamDelta text ;;
              if truthy delta
              then onStreamSession (appendSlackStream throws delta)
              else ret tt) ;;;
           modify (fun st => setReplyPlan (markSent (replyPlan st)) st))
          (modify (setStreamFailed true) ;;;
           stopStreamIfActive ;;;
           deliverNormal payload replyThreadTs)
    end.

(** Modelled from the spec: the reply dispatcher
    ([createReplyDispatcherWithTyping]) and [dispatchInboundMessage] are
    not among the sources.  Following the specification of the response
    dispatch loop, the reply events are delivered strictly in the order
    the generator emits them, and a delivery error is logged ([onError])
    without aborting the remaining sequence. *)
Fixpoint deliverEvents (events : list (ReplyPayload * ReplyDispatchKind))
  : Async RouterState unit :=
  match events with
  | [] => ret tt
  | (payload, kind) :: rest =>
      tryCatch (deliverWithOptionalStreaming payload kind) (ret tt) ;;;
      deliverEvents rest
  end.

(** Modelled from the spec: one run of the upstream generator, the
    reply events it emits and whether it then throws instead of
    returning its counts. *)
Definition dispatchInboundMessage
    (events : list (ReplyPayload * ReplyDispatchKind)) (generatorThrows : bool)
  : Async RouterState unit :=
  deliverEvents events ;;;
  if generatorThrows then throw else ret tt.

(** Modelled from the spec: [markDispatchIdle()] of the reply
    dispatcher only ends the typing indicator, best effort. *)
Definition markDispatchIdle : Async RouterState unit := ret tt.

(** The [try { ... } finally { ... }] that computes [dispatchResult]. *)
Definition dispatchResult
    (events : list (ReplyPayload * ReplyDispatchKind)) (generatorThrows : bool)
  : Async RouterState unit :=
  tryFinally
    (dispatchInboundMessage events generatorThrows)
    (markDispatchIdle ;;; stopStreamIfActive).

(** One whole response, from the initial state and an empty trace. *)
Definition runResponse
    (events : list (ReplyPayload * ReplyDispatchKind)) (generatorThrows : bool)
  : Completion unit * RouterState * Trace :=
  dispatchResult events generatorThrows (initialState d) [].

End Router.

(* ===================================================================== *)
(** ** Observations used in the statements *)
(* ===================================================================== *)

(** A use of a stream session by its owner. *)
Inductive SessionOp :=
| OpAppend (text : jsstring)
| OpStop (text : option jsstring).

Section SessionUse.

Variable throws : Trace -> TransportCall -> bool.

Definition runSessionOp (op : SessionOp) : Async SlackStreamSession unit :=
  match op with
  | OpAppend t => appendSlackStream throws t
  | OpStop t => stopSlackStream throws t
  end.

(** A sequence of uses of one session, the caller catching what a use
    throws. *)
Fixpoint runSessionOps (ops : list SessionOp) : Async SlackStreamSession unit :=
  match ops with
  | [] => ret tt
  | op :: rest => tryCatch (runSessionOp op) (ret tt) ;;; runSessionOps rest
  end.

(** The transport call that stops the session the router holds. *)
Definition stopCalls (st : RouterState) : Trace :=
  match streamSession st with
  | Some s => if stopped s then [] else [StreamerStop (streamer s) None]
  | None => []
  end.

(** Whether stopping the session the router holds throws. *)
Definition stopThrows (st : RouterState) (tr : Trace) : bool :=
  match streamSession st with
  | Some s => negb (stopped s) && throws tr (StreamerStop (streamer s) None)
  | None => false
  end.

(** The state of the router once the session it holds, if any, has been
    stopped. *)
Definition afterStop (st : RouterState) (tr : Trace) : RouterState :=
  match streamSession st with
  | Some _ =>
      {| replyPlan := replyPlan st; streamSession := None;
         streamFailed := streamFailed st || stopThrows st tr;
         streamedText := [] |}
  | None => st
  end.

(** The discrete path of the router: stop the session, if any, then
    send the payload to the thread target resolved for it. *)
Definition discretely (payload : ReplyPayload) (st : RouterState) (tr : Trace)
  : Completion unit * RouterState * Trace :=
  deliverNormal throws payload (nextThreadTs (replyPlan st))
    (afterStop st tr) (tr ++ stopCalls st).

End SessionUse.

(** The invariant of the router between two reply events: the tracked
    text is empty when no session is held, and a held session is live. *)
Definition routerInv (st : RouterState) : Prop :=
  match streamSession st with
  | Some s => stopped s = false
  | None => streamedText st = []
  end.

Definition isStreamCall (c : TransportCall) : bool :=
  match c with
  | ChatStream _ _ _ | StreamerAppend _ _ => true
  | _ => false
  end.

Definition isDiscreteSend (c : TransportCall) : bool :=
  match c with
  | DeliverReplies _ _ => true
  | _ => false
  end.

(** The discrete send of one payload, to some thread target. *)
Definition sendsPayload (mode : ReplyToMode) (incoming message : option jsstring)
    (e : ReplyPayload * ReplyDispatchKind) (c : TransportCall) : Prop :=
  exists replied,
    c = DeliverReplies (fst e) (resolveSlackThreadTs mode incoming message replied).

(** *** Scenarios of the streaming tests *)

Definition liveSession : SlackStreamSession :=
  {| streamer := 0; channel := lit "C1"; threadTs := lit "123"; stopped := false |}.

(** A payload of text only. *)
Definition textPayload (t : jsstring) : ReplyPayload :=
  {| text := Some t; mediaUrl := None; mediaUrls := None |}.

(** The direct message of the tests: channel "C1", [ts] "123", not in a
    thread. *)
Definition directMessage (mode : ReplyToMode) (streaming : option bool)
  : DispatchInput :=
  {| configStreaming := streaming;
     messageChannel := lit "C1";
     inputReplyToMode := mode;
     messageThreadTs := None;
     messageOwnTs := Some (lit "123") |}.

(** The two block replies of the tests. *)
Definition twoBlocks : list (ReplyPayload * ReplyDispatchKind) :=
  [(textPayload (lit "first block"), KindBlock);
   (textPayload (lit "second block"), KindBlock)].

(** A transport on which every call succeeds. *)
Definition neverThrows : Trace -> TransportCall -> bool := fun _ _ => false.

Definition isAppendCall (c : TransportCall) : bool :=
  match c with
  | StreamerAppend _ _ => true
  | _ => false
  end.

(** The transport of the fallback test: the first append call throws. *)
Definition firstAppendThrows : Trace -> TransportCall -> bool :=
  fun tr c =>
    isAppendCall c && Nat.eqb (List.length (List.filter isAppendCall tr)) 0.

(** A transport on which every stop call throws. *)
Definition stopThrowsAlways : Trace -> TransportCall -> bool :=
  fun _ c =>
    match c with
    | StreamerStop _ _ => true
    | _ => false
    end.

(** A silent-reply test that holds of the token alone. *)
Definition tokenOnly : jsstring -> bool :=
  fun t => strictEquals t (lit "NO_REPLY").

(** A router that holds the live session of the tests. *)
Definition streamingState : RouterState :=
  {| replyPlan := markSent (replyPlan (initialState (directMessage ModeAll (Some true))));
     streamSession := Some liveSession;
     streamFailed := false;
     streamedText := lit "first block" |}.

(** A router that holds a live session opened for another thread. *)
Definition strayState : RouterState :=
  {| replyPlan := markSent (replyPlan (initialState (directMessage ModeAll (Some true))));
     streamSession :=
       Some {| streamer := 0; channel := lit "C1"; threadTs := lit "999";
               stopped := false |};
     streamFailed := false;
     streamedText := lit "first block" |}.

(** A reply event that may be streamed whatever the state of the router:
    not a tool result, no media, a text that is neither empty nor
    silent. *)
Definition streamable (isSilentReplyText : jsstring -> bool)
    (e : ReplyPayload * ReplyDispatchKind) : bool :=
  negb (isToolKind (snd e))
  && negb (hasMedia (fst e))
  && truthy (textOf (fst e))
  && negb (isSilentReplyText (textOf (fst e))).

(** The three growing blocks of a streamed reply. *)
Definition threeBlocks : list (ReplyPayload * ReplyDispatchKind) :=
  [(textPayload (lit "one"), KindBlock);
   (textPayload (lit "one two"), KindBlock);
   (textPayload (lit "one two"), KindFinal)].

(** Partial-correctness triples on the state of asynchronous code: from
    a state satisfying [P], a normal completion with value [a] leaves a
    state satisfying [Q a], and an abrupt completion one satisfying [E]. *)
Definition hoare {St A} (P : St -> Prop) (m : Async St A)
    (Q : A -> St -> Prop) (E : St -> Prop) : Prop :=
  forall st tr, P st ->
    match m st tr with
    | (Normal a, st', _) => Q a st'
    | (Throw, st', _) => E st'
    end.

(** The fields of the plan that one response never changes. *)
Definition samePlan (p q : ReplyDeliveryPlan) : Prop :=
  replyToMode p = replyToMode q
  /\ incomingThreadTs p = incomingThreadTs q
  /\ messageTs p = messageTs q.

(* ===================================================================== *)
(** ** Further observations: runs of the delta resolver *)
(* ===================================================================== *)

(** The deltas the resolver returns for the successive snapshots [texts],
    and the snapshot tracked at the end. *)
Fixpoint resolveAll (streamed : jsstring) (texts : list jsstring)
  : list jsstring * jsstring :=
  match texts with
  | [] => ([], streamed)
  | nextText :: rest =>
      let r := resolveDelta streamed nextText in
      let rs := resolveAll (snd r) rest in
      (fst r :: fst rs, snd rs)
  end.

(** No snapshot of the run is a proper prefix of the text tracked when it
    arrives. *)
Fixpoint neverShrinks (streamed : jsstring) (texts : list jsstring) : bool :=
  match texts with
  | [] => true
  | nextText :: rest =>
      (negb (startsWith streamed nextText) || strictEquals nextText streamed)
      && neverShrinks (snd (resolveDelta streamed nextText)) rest
  end.

(* ===================================================================== *)
(** ** Further observations: the use of stream handles in a trace *)
(* ===================================================================== *)

(** The call is an append or a stop on the streamer [id]. *)
Definition usesStreamer (id : nat) (c : TransportCall) : bool :=
  match c with
  | StreamerAppend i _ | StreamerStop i _ => Nat.eqb i id
  | _ => false
  end.

(** The call is a stop on the streamer [id]. *)
Definition stopsStreamer (id : nat) (c : TransportCall) : bool :=
  match c with
  | StreamerStop i _ => Nat.eqb i id
  | _ => false
  end.

Definition usedIn (id : nat) (tr : Trace) : bool := existsb (usesStreamer id) tr.

Definition stoppedIn (id : nat) (tr : Trace) : bool := existsb (stopsStreamer id) tr.

(** After the stop call of a streamer, no call is made on it. *)
Definition noUseAfterStop (tr : Trace) : Prop :=
  forall a b id x, tr = a ++ StreamerStop id x :: b -> usedIn id b = false.

(** Every call on a streamer is made on the handle that an earlier
    [chatStream] call returned. *)
Definition usesOpened (tr : Trace) : Prop :=
  forall a b c id,
    tr = a ++ c :: b -> usesStreamer id c = true ->
    exists ch ts bs, nth_error a id = Some (ChatStream ch ts bs).

(** Every streamer that accepted an append is stopped later in the
    trace, unless it is the one still held. *)
Definition acceptedAreStopped (throws : Trace -> TransportCall -> bool)
    (held : option nat) (tr : Trace) : Prop :=
  forall a b id t,
    tr = a ++ StreamerAppend id t :: b ->
    throws a (StreamerAppend id t) = false ->
    stoppedIn id b = true \/ held = Some id.

(** The session held, seen from the trace: it is live, its streamer was
    returned by a [chatStream] call of the trace and has no stop call. *)
Definition heldIsOpen (held : option SlackStreamSession) (tr : Trace) : Prop :=
  match held with
  | Some s =>
      stopped s = false
      /\ stoppedIn (streamer s) tr = false
      /\ exists ch ts bs, nth_error tr (streamer s) = Some (ChatStream ch ts bs)
  | None => True
  end.

(** The invariant that ties the state of the router to the trace. *)
Definition traceInv (throws : Trace -> TransportCall -> bool)
    (st : RouterState) (tr : Trace) : Prop :=
  noUseAfterStop tr
  /\ usesOpened tr
  /\ acceptedAreStopped throws (option_map streamer (streamSession st)) tr
  /\ heldIsOpen (streamSession st) tr.

(** The number of discrete sends of a trace. *)
Definition sendsIn (tr : Trace) : nat := List.length (List.filter isDiscreteSend tr).

(** Partial-correctness triples on the state and the trace. *)
Definition hoareT {St A} (P : St -> Trace -> Prop) (m : Async St A)
    (Q : A -> St -> Trace -> Prop) (E : St -> Trace -> Prop) : Prop :=
  forall st tr, P st tr ->
    match m st tr with
    | (Normal a, st', tr') => Q a st' tr'
    | (Throw, st', tr') => E st' tr'
    end.

(* ===================================================================== *)
(** ** Typing indicator ([typingCallbacks] of the dispatcher) *)
(* ===================================================================== *)

(** [ctx.setSlackThreadStatus({ channelId, threadTs, status })]. *)
Inductive StatusCall :=
| SetSlackThreadStatus (channelId : jsstring) (threadTs : option jsstring)
    (status : jsstring).

Definition statusOf (c : StatusCall) : jsstring :=
  match c with
  | SetSlackThreadStatus _ _ status => status
  end.

Section Typing.

(** Whether a status call throws, given the status calls made before. *)
Variable statusThrows : list StatusCall -> StatusCall -> bool.

Variable messageChannel' : jsstring.          (* message.channel *)
Variable statusThreadTs : option jsstring.    (* of resolveSlackThreadTargets *)

(** The [start] callback, on the variable [didSetStatus]. *)
Definition typingStart (didSetStatus : bool) (tr : list StatusCall)
  : Completion unit * bool * list StatusCall :=
  let c := SetSlackThreadStatus messageChannel' statusThreadTs (lit "is typing...") in
  (if statusThrows tr c then Throw else Normal tt, true, tr ++ [c]).

(** The [stop] callback. *)
Definition typingStop (didSetStatus : bool) (tr : list StatusCall)
  : Completion unit * bool * list StatusCall :=
  if negb didSetStatus then (Normal tt, didSetStatus, tr)
  else
    let c := SetSlackThreadStatus messageChannel' statusThreadTs [] in
    (if statusThrows tr c then Throw else Normal tt, false, tr ++ [c]).

(** A run of the two callbacks, [true] for [start] and [false] for
    [stop], what they throw being reported to [onStartError] and
    [onStopError]. *)
Fixpoint runTyping (ops : list bool) (didSetStatus : bool) (tr : list StatusCall)
  : bool * list StatusCall :=
  match ops with
  | [] => (didSetStatus, tr)
  | op :: rest =>
      let '(_, flag, tr') :=
        if op then typingStart didSetStatus tr else typingStop didSetStatus tr in
      runTyping rest flag tr'
  end.

End Typing.

(** The last status call of the trace asked for the typing status. *)
Definition typingShown (tr : list StatusCall) : bool :=
  match rev tr with
  | c :: _ => truthy (statusOf c)
  | [] => false
  end.

(** Every call that clears the status directly follows a call that asked
    for the typing status. *)
Definition clearsFollowTyping (tr : list StatusCall) : Prop :=
  forall a c b, tr = a ++ c :: b -> statusOf c = [] -> typingShown a = true.

(* ===================================================================== *)
(** ** [extractFirstJsonObject] of the update script *)
(* ===================================================================== *)

Definition LBRACE : code_unit := 123%N.
Definition RBRACE : code_unit := 125%N.
Definition QUOTE : code_unit := 34%N.
Definition BACKSLASH : code_unit := 92%N.

(** [s.indexOf(c)] for a string [c] of one code unit; [None] for -1. *)
Fixpoint indexOf (s : jsstring) (c : code_unit) : option nat :=
  match s with
  | [] => None
  | x :: s' =>
      if N.eqb x c then Some 0
      else match indexOf s' c with
           | Some i => Some (S i)
           | None => None
           end
  end.

(** The [for] loop of [extractFirstJsonObject] over the code units from
    index [i] on: [taken] is [i - start]; the result is [i + 1 - start]
    for the index [i] at which the loop returns.  The script compares
    the one code unit [ch] with the literal of two backslashes. *)
Fixpoint scanObject (rest : jsstring) (taken : nat) (depth : Z)
    (inString escaped : bool) : option nat :=
  match rest with
  | [] => None
  | ch :: rest' =>
      if inString then
        if escaped then scanObject rest' (S taken) depth inString false
        else if strictEquals [ch] [BACKSLASH; BACKSLASH]
             then scanObject rest' (S taken) depth inString true
        else if N.eqb ch QUOTE
             then scanObject rest' (S taken) depth false escaped
        else scanObject rest' (S taken) depth inString escaped
      else if N.eqb ch QUOTE then scanObject rest' (S taken) depth true escaped
      else if N.eqb ch LBRACE
           then scanObject rest' (S taken) (depth + 1)%Z inString escaped
      else if N.eqb ch RBRACE then
        if Z.eqb (depth - 1) 0 then Some (S taken)
        else scanObject rest' (S taken) (depth - 1)%Z inString escaped
      else scanObject rest' (S taken) depth inString escaped
  end.

(** [extractFirstJsonObject(raw)]; [None] for [null]. *)
Definition extractFirstJsonObject (raw : jsstring) : option jsstring :=
  match indexOf raw LBRACE with
  | None => None
  | Some start =>
      match scanObject (skipn start raw) 0 0%Z false false with
      | Some len => Some (firstn len (skipn start raw))
      | None => None
      end
  end.

(** The code unit does not occur in the string. *)
Definition lacks (c : code_unit) (s : jsstring) : bool :=
  negb (existsb (N.eqb c) s).

(** The text of an object after its first plain run: string literals
    [str], each followed by a plain run. *)
Fixpoint flatObject (segments : list (jsstring * jsstring)) : jsstring :=
  match segments with
  | [] => []
  | (str, plain) :: rest => QUOTE :: str ++ QUOTE :: plain ++ flatObject rest
  end.

(** A run outside string literals with no quote and no brace. *)
Definition isPlain (s : jsstring) : bool :=
  lacks QUOTE s && lacks LBRACE s && lacks RBRACE s.

(** String literals without quote character, plain runs between them. *)
Fixpoint flatSegments (segments : list (jsstring * jsstring)) : bool :=
  match segments with
  | [] => true
  | (str, plain) :: rest => lacks QUOTE str && isPlain plain && flatSegments rest
  end.

(** The discrete sends of a run of reply events none of which is
    streamed, as [deliverNormal] makes them from the trace [tr] on: each
    payload is sent to the thread target the plan resolves when the event
    is handled, and a send that does not throw marks the plan as sent. *)
Fixpoint discreteSends (throws : Trace -> TransportCall -> bool)
    (plan : ReplyDeliveryPlan) (tr : Trace)
    (events : list (ReplyPayload * ReplyDispatchKind)) : Trace :=
  match events with
  | [] => []
  | (payload, _) :: rest =>
      let send := DeliverReplies payload (nextThreadTs plan) in
      send :: discreteSends throws
                (if throws tr send then plan else markSent plan)
                (tr ++ [send]) rest
  end.

(* ===================================================================== *)
(** ** Facts about the string primitives *)
(* ===================================================================== *)

Module JSFacts.



Lemma strictEquals_spec (a b : jsstring) : strictEquals a b = true <-> a = b.
Proof.
  revert b; induction a as [|x a IH]; intros [|y b]; simpl;
    try (split; (discriminate || reflexivity)).
  rewrite andb_true_iff, N.eqb_eq, IH.
  split; [intros [-> ->]; reflexivity | intros E; inversion E; auto].
Qed.

Lemma strictEquals_refl (a : jsstring) : strictEquals a a = true.
Proof. apply strictEquals_spec; reflexivity. Qed.

Lemma strictEquals_false (a b : jsstring) : a <> b -> strictEquals a b = false.
Proof.
  intros H; destruct (strictEquals a b) eqn:E; [|reflexivity].
  apply strictEquals_spec in E; contradiction.
Qed.

Lemma startsWith_app (a b : jsstring) : startsWith (a ++ b) a = true.
Proof.
  induction a as [|x a IH]; simpl; [reflexivity|].
  rewrite N.eqb_refl; exact IH.
Qed.

Lemma startsWith_spec (s p : jsstring) :
  startsWith s p = true <-> exists t, s = p ++ t.
Proof.
  revert s; induction p as [|y p IH]; intros s; simpl.
  - split; [intros _; exists s; reflexivity | reflexivity].
  - destruct s as [|x s].
    + split; [discriminate | intros [t Ht]; discriminate].
    + rewrite andb_true_iff, N.eqb_eq, IH. split.
      * intros [-> [t ->]]; exists t; reflexivity.
      * intros [t Ht]; inversion Ht; subst; split; [reflexivity | exists t; reflexivity].
Qed.

Lemma slice_app (a b : jsstring) : slice (a ++ b) (length a) = b.
Proof. unfold slice; induction a; simpl; auto. Qed.

Lemma app_fixpoint_nil (a b : jsstring) : a ++ b = a -> b = [].
Proof.
  intros H. apply (f_equal (@length _)) in H.
  rewrite length_app in H. destruct b; [reflexivity | simpl in H; lia].
Qed.

Lemma truthy_false (s : jsstring) : truthy s = false <-> s = [].
Proof. destruct s; simpl; split; congruence. Qed.

Lemma startsWith_length (s p : jsstring) :
  startsWith s p = true -> List.length p <= List.length s.
Proof.
  intros H; apply startsWith_spec in H as [t ->].
  rewrite length_app; lia.
Qed.

End JSFacts.

Import JSFacts.

(* ===================================================================== *)
(** ** The delta resolver *)
(* ===================================================================== *)

Lemma resolveDelta_no_previous (a : jsstring) : resolveDelta [] a = (a, a).
Proof. reflexivity. Qed.

Lemma resolveDelta_same (a : jsstring) : fst (resolveDelta a a) = [].
Proof.
  unfold resolveDelta. destruct a as [|c a]; [reflexivity|].
  cbn [truthy negb]. rewrite strictEquals_refl. reflexivity.
Qed.

Lemma resolveDelta_extension (a b : jsstring) : fst (resolveDelta a (a ++ b)) = b.
Proof.
  unfold resolveDelta. destruct a as [|c a]; [reflexivity|].
  cbn [truthy negb].
  destruct (strictEquals ((c :: a) ++ b) (c :: a)) eqn:E.
  - apply strictEquals_spec, app_fixpoint_nil in E. subst b. reflexivity.
  - rewrite startsWith_app. cbn [fst]. apply slice_app.
Qed.

Lemma resolveDelta_shrink (a b : jsstring) : fst (resolveDelta (a ++ b) a) = [].
Proof.
  unfold resolveDelta.
  destruct (truthy (a ++ b)) eqn:T; cbn [negb].
  - destruct (strictEquals a (a ++ b)); [reflexivity|].
    destruct (startsWith a (a ++ b)) eqn:S.
    + apply startsWith_length in S. rewrite length_app in S.
      cbn [fst]. unfold slice. apply skipn_all2. rewrite length_app. lia.
    + rewrite startsWith_app. reflexivity.
  - apply truthy_false, app_eq_nil in T as [-> _]. reflexivity.
Qed.

(** C1.  For every pair of strings [a], [b], the delta resolver gives:
    from no previous snapshot, the next text [a] in full; from [a] to [a],
    the empty delta; from [a] to [a ++ b], the suffix [b]; and from
    [a ++ b] back to [a], the empty delta (a shrink is swallowed). *)
Theorem C1_delta_correctness (a b : jsstring) :
  fst (resolveDelta [] a) = a
  /\ fst (resolveDelta a a) = []
  /\ fst (resolveDelta a (a ++ b)) = b
  /\ fst (resolveDelta (a ++ b) a) = [].
Proof.
  repeat split.
  - apply resolveDelta_same.
  - apply resolveDelta_extension.
  - apply resolveDelta_shrink.
Qed.

Lemma resolveDelta_divergent (previous next : jsstring) :
  truthy previous = true ->
  next <> previous ->
  startsWith next previous = false ->
  startsWith previous next = false ->
  resolveDelta previous next = (LF :: next, previous ++ LF :: next).
Proof.
  intros T N P1 P2. unfold resolveDelta.
  rewrite T, (strictEquals_false N), P1, P2. reflexivity.
Qed.

Lemma resolveStreamDelta_run (nextText : jsstring) (st : RouterState) (tr : Trace) :
  resolveStreamDelta nextText st tr =
  (Normal (fst (resolveDelta (streamedText st) nextText)),
   setStreamedText (snd (resolveDelta (streamedText st) nextText)) st, tr).
Proof. reflexivity. Qed.

(** C2, as stated, fails: from the snapshot "a", the divergent text "b"
    gives the delta "\nb", but the snapshot tracked afterwards is
    "a\nb", not "b". *)
Lemma C2_counterexample :
  ~ (forall previous next : jsstring,
        truthy previous = true ->
        next <> previous ->
        startsWith next previous = false ->
        startsWith previous next = false ->
        resolveDelta previous next = (LF :: next, next)).
Proof.
  intros H.
  specialize (H [97%N] [98%N] eq_refl).
  assert (E : resolveDelta [97%N] [98%N] = ([LF; 98%N], [98%N])).
  { apply H; [discriminate | reflexivity | reflexivity]. }
  vm_compute in E. discriminate E.
Qed.

(** C2, amended.  For every previous snapshot and next text with no
    prefix relationship in either direction, the delta resolver returns
    the delta "\n" + next, and the tracked snapshot becomes the previous
    snapshot followed by that delta, previous + "\n" + next: the text
    streamed so far, not next alone. *)
Theorem C2_divergent_delta (previous next : jsstring) (st : RouterState) (tr : Trace) :
  truthy previous = true ->
  next <> previous ->
  startsWith next previous = false ->
  startsWith previous next = false ->
  streamedText st = previous ->
  resolveDelta previous next = (LF :: next, previous ++ LF :: next)
  /\ resolveStreamDelta next st tr =
       (Normal (LF :: next), setStreamedText (previous ++ LF :: next) st, tr)
  /\ previous ++ LF :: next <> next.
Proof.
  intros T N P1 P2 E.
  pose proof (resolveDelta_divergent T N P1 P2) as R.
  split; [exact R|]. split.
  - rewrite resolveStreamDelta_run, E, R. reflexivity.
  - intros C. apply (f_equal (@List.length _)) in C.
    rewrite length_app in C. simpl in C.
    destruct previous; [discriminate T | simpl in C; lia].
Qed.

Lemma C2_divergent_delta_witness :
  resolveDelta (lit "a") (lit "b") = (LF :: lit "b", lit "a" ++ LF :: lit "b")
  /\ resolveStreamDelta (lit "b")
       {| replyPlan := {| replyToMode := ModeAll; incomingThreadTs := None;
                          messageTs := None; hasReplied := true |};
          streamSession := None; streamFailed := false;
          streamedText := lit "a" |} []
     = (Normal (LF :: lit "b"),
        setStreamedText (lit "a" ++ LF :: lit "b")
          {| replyPlan := {| replyToMode := ModeAll; incomingThreadTs := None;
                             messageTs := None; hasReplied := true |};
             streamSession := None; streamFailed := false;
             streamedText := lit "a" |}, [])
  /\ lit "a" ++ LF :: lit "b" <> lit "b".
Proof.
  apply (@C2_divergent_delta (lit "a") (lit "b")).
  - reflexivity.
  - discriminate.
  - reflexivity.
  - reflexivity.
  - reflexivity.
Defined.

(* ===================================================================== *)
(** ** The stream session *)
(* ===================================================================== *)

Ltac unfold_async :=
  cbv beta iota delta
    [bind ret get modify throw tryCatch tryFinally local zoom transport
     chatStream].

Section StreamSessionFacts.

Variable throws : Trace -> TransportCall -> bool.

Lemma appendSlackStream_empty (s : SlackStreamSession) (tr : Trace) :
  appendSlackStream throws [] s tr = (Normal tt, s, tr).
Proof. reflexivity. Qed.

Lemma appendSlackStream_stopped (t : jsstring) (s : SlackStreamSession) (tr : Trace) :
  stopped s = true ->
  appendSlackStream throws t s tr = (Normal tt, s, tr).
Proof.
  intros H. unfold appendSlackStream. unfold_async.
  rewrite H, orb_true_r. reflexivity.
Qed.

Lemma appendSlackStream_live (t : jsstring) (s : SlackStreamSession) (tr : Trace) :
  truthy t = true ->
  stopped s = false ->
  appendSlackStream throws t s tr =
  (if throws tr (StreamerAppend (streamer s) t) then Throw else Normal tt,
   s, tr ++ [StreamerAppend (streamer s) t]).
Proof.
  intros T H. unfold appendSlackStream. unfold_async.
  rewrite T, H. reflexivity.
Qed.

Lemma stopSlackStream_stopped (ft : option jsstring) (s : SlackStreamSession)
    (tr : Trace) :
  stopped s = true ->
  stopSlackStream throws ft s tr = (Normal tt, s, tr).
Proof.
  intros H. unfold stopSlackStream. unfold_async. rewrite H. reflexivity.
Qed.

Lemma stopSlackStream_live (ft : option jsstring) (s : SlackStreamSession)
    (tr : Trace) :
  stopped s = false ->
  stopSlackStream throws ft s tr =
  (if throws tr (StreamerStop (streamer s) (finalTextOf ft))
   then Throw else Normal tt,
   markStopped s, tr ++ [StreamerStop (streamer s) (finalTextOf ft)]).
Proof.
  intros H. unfold stopSlackStream. unfold_async. rewrite H. reflexivity.
Qed.

(** A use of a stopped session changes nothing and calls nothing. *)
Lemma runSessionOp_stopped (op : SessionOp) (s : SlackStreamSession) (tr : Trace) :
  stopped s = true ->
  runSessionOp throws op s tr = (Normal tt, s, tr).
Proof.
  intros H. destruct op; simpl.
  - apply appendSlackStream_stopped, H.
  - apply stopSlackStream_stopped, H.
Qed.

Lemma runSessionOps_stopped (ops : list SessionOp) (s : SlackStreamSession)
    (tr : Trace) :
  stopped s = true ->
  runSessionOps throws ops s tr = (Normal tt, s, tr).
Proof.
  intros H. induction ops as [|op ops IH]; [reflexivity|].
  cbn [runSessionOps]. unfold bind, tryCatch.
  rewrite (runSessionOp_stopped op s tr H). exact IH.
Qed.

(** The [stopped] flag never goes back to [false]. *)
Lemma runSessionOp_monotone (op : SessionOp) (s : SlackStreamSession) (tr : Trace) :
  stopped s = true ->
  stopped (snd (fst (runSessionOp throws op s tr))) = true.
Proof. intros H. rewrite (runSessionOp_stopped op s tr H). exact H. Qed.

(** C6.  For every stream session: an append with empty text, or on a
    session already stopped, makes no transport call and changes
    nothing; the first stop sets [stopped] and makes exactly one
    transport stop call; every later stop or append on that session is
    a no-op.  The flag moves only from [false] to [true]. *)
Theorem C6_session_lifecycle (s : SlackStreamSession) (tr : Trace)
    (t : jsstring) (ft : option jsstring) :
  appendSlackStream throws [] s tr = (Normal tt, s, tr)
  /\ (stopped s = true ->
      appendSlackStream throws t s tr = (Normal tt, s, tr)
      /\ stopSlackStream throws ft s tr = (Normal tt, s, tr))
  /\ (stopped s = false ->
      exists r,
        stopSlackStream throws ft s tr =
          (r, markStopped s, tr ++ [StreamerStop (streamer s) (finalTextOf ft)])
        /\ stopped (markStopped s) = true
        /\ forall (ops : list SessionOp) (tr' : Trace),
             runSessionOps throws ops (markStopped s) tr' =
               (Normal tt, markStopped s, tr'))
  /\ (forall op : SessionOp,
        stopped s = true ->
        stopped (snd (fst (runSessionOp throws op s tr))) = true).
Proof.
  split; [apply appendSlackStream_empty|]. split; [|split].
  - intros H. split.
    + apply appendSlackStream_stopped, H.
    + apply stopSlackStream_stopped, H.
  - intros H. eexists. split; [apply stopSlackStream_live, H|].
    split; [reflexivity|].
    intros ops tr'. apply runSessionOps_stopped. reflexivity.
  - intros op H. apply runSessionOp_monotone, H.
Qed.

(** C10.  [stopSlackStream] sets [stopped] before it issues the
    transport stop call: when that call throws, the session is stopped
    all the same, and every later append or stop on it is a no-op that
    makes no transport call. *)
Theorem C10_stop_marks_before_call (s : SlackStreamSession) (tr : Trace)
    (ft : option jsstring) :
  stopped s = false ->
  throws tr (StreamerStop (streamer s) (finalTextOf ft)) = true ->
  exists s' tr',
    stopSlackStream throws ft s tr = (Throw, s', tr')
    /\ tr' = tr ++ [StreamerStop (streamer s) (finalTextOf ft)]
    /\ stopped s' = true
    /\ forall (ops : list SessionOp) (tr'' : Trace),
         runSessionOps throws ops s' tr'' = (Normal tt, s', tr'').
Proof.
  intros H F. exists (markStopped s), (tr ++ [StreamerStop (streamer s) (finalTextOf ft)]).
  rewrite (stopSlackStream_live ft s tr H), F.
  repeat split.
  intros ops tr''. apply runSessionOps_stopped. reflexivity.
Qed.

End StreamSessionFacts.

Lemma C6_session_lifecycle_witness :
  stopped (markStopped liveSession) = true
  /\ appendSlackStream (fun _ _ => false) (lit "late") (markStopped liveSession) []
     = (Normal tt, markStopped liveSession, [])
  /\ stopSlackStream (fun _ _ => false) None (markStopped liveSession) []
     = (Normal tt, markStopped liveSession, [])
  /\ stopped liveSession = false
  /\ exists r,
       stopSlackStream (fun _ _ => false) None liveSession [] =
         (r, markStopped liveSession, [StreamerStop 0 None]).
Proof.
  pose proof (C6_session_lifecycle (fun _ _ => false) (markStopped liveSession)
                [] (lit "late") None) as [_ [Hs _]].
  pose proof (C6_session_lifecycle (fun _ _ => false) liveSession
                [] (lit "late") None) as [_ [_ [Hl _]]].
  destruct (Hs eq_refl) as [Ha Hb].
  destruct (Hl eq_refl) as [r [Hr _]].
  split; [reflexivity|]. split; [exact Ha|]. split; [exact Hb|].
  split; [reflexivity|]. exists r. exact Hr.
Defined.

Lemma C10_stop_marks_before_call_witness :
  exists s' tr',
    stopSlackStream (fun _ _ => true) None liveSession [] = (Throw, s', tr')
    /\ tr' = [] ++ [StreamerStop 0 None]
    /\ stopped s' = true
    /\ forall (ops : list SessionOp) (tr'' : Trace),
         runSessionOps (fun _ _ => true) ops s' tr'' = (Normal tt, s', tr'').
Proof.
  apply (@C10_stop_marks_before_call (fun _ _ => true) liveSession [] None).
  - reflexivity.
  - reflexivity.
Defined.

(* ===================================================================== *)
(** ** A program logic for the router state *)
(* ===================================================================== *)

Section Hoare.

Context {St : Type}.

Lemma hoare_ret {A} (P : St -> Prop) (a : A) (Q : A -> St -> Prop) (E : St -> Prop) :
  (forall st, P st -> Q a st) -> hoare P (ret a) Q E.
Proof. intros H st tr HP. simpl. auto. Qed.

Lemma hoare_throw {A} (P : St -> Prop) (Q : A -> St -> Prop) (E : St -> Prop) :
  (forall st, P st -> E st) -> hoare P (@throw St A) Q E.
Proof. intros H st tr HP. simpl. auto. Qed.

Lemma hoare_get (P : St -> Prop) (Q : St -> St -> Prop) (E : St -> Prop) :
  (forall st, P st -> Q st st) -> hoare P get Q E.
Proof. intros H st tr HP. simpl. auto. Qed.

Lemma hoare_modify (P : St -> Prop) (f : St -> St) (Q : unit -> St -> Prop)
    (E : St -> Prop) :
  (forall st, P st -> Q tt (f st)) -> hoare P (modify f) Q E.
Proof. intros H st tr HP. simpl. auto. Qed.

Lemma hoare_bind {A B} (P : St -> Prop) (m : Async St A) (k : A -> Async St B)
    (R : A -> St -> Prop) (Q : B -> St -> Prop) (E : St -> Prop) :
  hoare P m R E ->
  (forall a, hoare (R a) (k a) Q E) ->
  hoare P (bind m k) Q E.
Proof.
  intros Hm Hk st tr HP. specialize (Hm st tr HP). unfold bind.
  destruct (m st tr) as [[[a|] st'] tr']; [|exact Hm].
  apply (Hk a st' tr' Hm).
Qed.

Lemma hoare_tryCatch {A} (P : St -> Prop) (body handler : Async St A)
    (Q : A -> St -> Prop) (R E : St -> Prop) :
  hoare P body Q R ->
  hoare R handler Q E ->
  hoare P (tryCatch body handler) Q E.
Proof.
  intros Hb Hh st tr HP. specialize (Hb st tr HP). unfold tryCatch.
  destruct (body st tr) as [[[a|] st'] tr']; [exact Hb|].
  apply (Hh st' tr' Hb).
Qed.

Lemma hoare_tryFinally {A} (P : St -> Prop) (body : Async St A)
    (finalizer : Async St unit) (Q1 : A -> St -> Prop) (E1 : St -> Prop)
    (Q : A -> St -> Prop) (E : St -> Prop) :
  hoare P body Q1 E1 ->
  (forall a, hoare (Q1 a) finalizer (fun _ => Q a) E) ->
  hoare E1 finalizer (fun _ => E) E ->
  hoare P (tryFinally body finalizer) Q E.
Proof.
  intros Hb Hn He st tr HP. specialize (Hb st tr HP). unfold tryFinally.
  destruct (body st tr) as [[[a|] st'] tr'].
  - specialize (Hn a st' tr' Hb).
    destruct (finalizer st' tr') as [[[[]|] st''] tr'']; exact Hn.
  - specialize (He st' tr' Hb).
    destruct (finalizer st' tr') as [[[[]|] st''] tr'']; exact He.
Qed.

Lemma hoare_weaken {A} (P P' : St -> Prop) (m : Async St A)
    (Q Q' : A -> St -> Prop) (E E' : St -> Prop) :
  hoare P' m Q' E' ->
  (forall st, P st -> P' st) ->
  (forall a st, Q' a st -> Q a st) ->
  (forall st, E' st -> E st) ->
  hoare P m Q E.
Proof.
  intros H HP HQ HE st tr Hst. specialize (H st tr (HP st Hst)).
  destruct (m st tr) as [[[a|] st'] tr']; auto.
Qed.

(** A call on the transport leaves the state as it is. *)
Lemma hoare_transport (throws : Trace -> TransportCall -> bool)
    (c : TransportCall) (P : St -> Prop) :
  hoare P (transport throws c) (fun _ => P) P.
Proof. intros st tr HP. unfold transport. destruct (throws tr c); exact HP. Qed.

Lemma hoare_startSlackStream (throws : Trace -> TransportCall -> bool)
    (ch ts : jsstring) (t : option jsstring) (bs : option N) (P : St -> Prop) :
  hoare P (startSlackStream throws ch ts t bs)
    (fun session st => P st /\ stopped session = false /\ threadTs session = ts)
    P.
Proof.
  intros st tr HP. unfold startSlackStream, chatStream, bind.
  destruct (throws tr (ChatStream ch ts bs)); [exact HP|].
  destruct t as [t|]; [|simpl; auto].
  destruct (truthy t) eqn:T; [|simpl; auto].
  unfold local.
  rewrite appendSlackStream_live by (assumption || reflexivity).
  cbn [streamer].
  match goal with |- context [if ?b then _ else _] => destruct b end;
    simpl; auto.
Qed.

End Hoare.

(* ===================================================================== *)
(** ** The delivery router, one reply event at a time *)
(* ===================================================================== *)

Lemma resolveSlackThreadTs_all (incoming message : option jsstring) (replied : bool) :
  resolveSlackThreadTs ModeAll incoming message replied =
  threadIdentifier incoming message.
Proof. reflexivity. Qed.

Lemma samePlan_refl (p : ReplyDeliveryPlan) : samePlan p p.
Proof. repeat split. Qed.

Lemma samePlan_markSent (p q : ReplyDeliveryPlan) :
  samePlan p q -> samePlan p (markSent q).
Proof. intros H; exact H. Qed.

Section RouterFacts.

Variable throws : Trace -> TransportCall -> bool.
Variable isSilentReplyText : jsstring -> bool.
Variable d : DispatchInput.

Local Abbreviation deliver :=
  (deliverWithOptionalStreaming throws isSilentReplyText d).
Local Abbreviation eligible := (canStreamText isSilentReplyText d).

(** [stopStreamIfActive] never throws; it makes the stop call of a live
    session, sets [streamFailed] when that call throws, and always
    leaves no session and an empty tracked text. *)
Lemma stopStreamIfActive_run (st : RouterState) (tr : Trace) :
  stopStreamIfActive throws st tr =
  (Normal tt, afterStop throws st tr, tr ++ stopCalls st).
Proof.
  unfold stopStreamIfActive, onStreamSession, afterStop, stopCalls,
    stopThrows.
  unfold_async. destruct st as [plan [s|] failed streamed]; cbn.
  - unfold stopSlackStream. unfold_async.
    destruct (stopped s) eqn:S; cbn.
    + rewrite orb_false_r, app_nil_r. reflexivity.
    + destruct (throws tr (StreamerStop (streamer s) None)); cbn.
      * rewrite orb_true_r. reflexivity.
      * rewrite orb_false_r. reflexivity.
  - rewrite app_nil_r. reflexivity.
Qed.

Lemma stopStreamIfActive_none (st : RouterState) (tr : Trace) :
  streamSession st = None ->
  stopStreamIfActive throws st tr = (Normal tt, st, tr).
Proof.
  intros H. rewrite stopStreamIfActive_run.
  unfold afterStop, stopCalls. rewrite H, app_nil_r. reflexivity.
Qed.

Lemma deliverNormal_run (payload : ReplyPayload) (ts : option jsstring)
    (st : RouterState) (tr : Trace) :
  deliverNormal throws payload ts st tr =
  (if throws tr (DeliverReplies payload ts) then Throw else Normal tt,
   if throws tr (DeliverReplies payload ts) then st
   else setReplyPlan (markSent (replyPlan st)) st,
   tr ++ [DeliverReplies payload ts]).
Proof.
  unfold deliverNormal. unfold_async.
  destruct (throws tr (DeliverReplies payload ts)); reflexivity.
Qed.

Lemma effectiveThreadTsOf_none_cannot_stream (st : RouterState)
    (payload : ReplyPayload) (kind : ReplyDispatchKind) :
  effectiveThreadTsOf (nextThreadTs (replyPlan st)) = None ->
  eligible st payload kind = false.
Proof.
  intros H. unfold canStreamText. rewrite H. cbn.
  rewrite !andb_false_r. reflexivity.
Qed.

Lemma streamFailed_cannot_stream (st : RouterState)
    (payload : ReplyPayload) (kind : ReplyDispatchKind) :
  streamFailed st = true ->
  eligible st payload kind = false.
Proof.
  intros H. unfold canStreamText. rewrite H. cbn.
  rewrite !andb_false_r. reflexivity.
Qed.

Lemma deliver_discrete (payload : ReplyPayload) (kind : ReplyDispatchKind)
    (st : RouterState) (tr : Trace) :
  eligible st payload kind = false ->
  deliver payload kind st tr = discretely throws payload st tr.
Proof.
  intros H. unfold deliverWithOptionalStreaming, discretely.
  unfold bind at 1. unfold get at 1. rewrite H. cbn [negb].
  unfold bind at 1. rewrite stopStreamIfActive_run. reflexivity.
Qed.

(** What eligibility gives. *)
Lemma canStreamText_true (st : RouterState) (payload : ReplyPayload)
    (kind : ReplyDispatchKind) :
  eligible st payload kind = true ->
  useStreaming d = true
  /\ streamFailed st = false
  /\ kind <> KindTool
  /\ hasMedia payload = false
  /\ (exists T, nextThreadTs (replyPlan st) = Some T /\ truthy (trim T) = true)
  /\ truthy (textOf payload) = true
  /\ isSilentReplyText (textOf payload) = false.
Proof.
  unfold canStreamText. rewrite !andb_true_iff, !negb_true_iff.
  intros [[[[[[U F] K] M] E] T] S].
  repeat split; auto.
  - intros ->. discriminate K.
  - unfold effectiveThreadTsOf in E.
    destruct (nextThreadTs (replyPlan st)) as [T'|]; [|discriminate E].
    exists T'. split; [reflexivity|].
    destruct (truthy (trim T')); [reflexivity | discriminate E].
Qed.

(** The streaming path when no session is held: the stream is opened
    and seeded with the text of the payload. *)
Lemma deliver_start (payload : ReplyPayload) (kind : ReplyDispatchKind)
    (st : RouterState) (tr : Trace) (T : jsstring) :
  streamSession st = None ->
  eligible st payload kind = true ->
  nextThreadTs (replyPlan st) = Some T ->
  let open := ChatStream (messageChannel d) (trim T) None in
  let seed := StreamerAppend (List.length tr) (textOf payload) in
  let failed := setStreamFailed true st in
  deliver payload kind st tr =
  if throws tr open
  then deliverNormal throws payload (Some T) failed (tr ++ [open])
  else if throws (tr ++ [open]) seed
  then deliverNormal throws payload (Some T) failed ((tr ++ [open]) ++ [seed])
  else (Normal tt,
        {| replyPlan := markSent (replyPlan st);
           streamSession :=
             Some {| streamer := List.length tr; channel := messageChannel d;
                     threadTs := trim T; stopped := false |};
           streamFailed := streamFailed st;
           streamedText := textOf payload |},
        (tr ++ [open]) ++ [seed]).
Proof.
  intros S C N open seed failed.
  destruct (canStreamText_true _ _ _ C) as (_ & _ & _ & _ & [T' [N' TT]] & TX & _).
  rewrite N in N'. injection N' as <-.
  unfold deliverWithOptionalStreaming.
  unfold bind at 1. unfold get at 1. rewrite C. cbn [negb].
  rewrite N. unfold effectiveThreadTsOf. rewrite TT.
  unfold tryCatch, bind at 1. unfold get at 1.
  unfold needsNewSession. rewrite S.
  unfold bind at 1. unfold bind at 1.
  rewrite (stopStreamIfActive_none st tr S).
  unfold bind at 1. unfold startSlackStream. rewrite TX.
  unfold bind at 1. unfold chatStream. fold open.
  destruct (throws tr open).
  - unfold bind at 1. unfold modify at 1.
    unfold bind at 1. rewrite stopStreamIfActive_none by (destruct st; exact S).
    reflexivity.
  - unfold bind at 1. unfold local.
    rewrite appendSlackStream_live by (exact TX || reflexivity).
    cbn [streamer]. fold seed.
    destruct (throws (tr ++ [open]) seed).
    + unfold bind at 1. unfold modify at 1.
      unfold bind at 1. rewrite stopStreamIfActive_none by (destruct st; exact S).
      reflexivity.
    + cbn. destruct st; cbn in *. subst. reflexivity.
Qed.

(** The streaming path on the session already held for the thread: the
    delta against the tracked text is appended, when there is one. *)
Lemma deliver_append (payload : ReplyPayload) (kind : ReplyDispatchKind)
    (st : RouterState) (tr : Trace) (T : jsstring) (s : SlackStreamSession) :
  streamSession st = Some s ->
  stopped s = false ->
  threadTs s = trim T ->
  eligible st payload kind = true ->
  nextThreadTs (replyPlan st) = Some T ->
  let r := resolveDelta (streamedText st) (textOf payload) in
  let more := StreamerAppend (streamer s) (fst r) in
  truthy (fst r) = true ->
  throws tr more = false ->
  deliver payload kind st tr =
  (Normal tt,
   {| replyPlan := markSent (replyPlan st); streamSession := Some s;
      streamFailed := streamFailed st; streamedText := snd r |},
   tr ++ [more]).
Proof.
  intros S L TS C N r more TD OK.
  destruct (canStreamText_true _ _ _ C) as (_ & _ & _ & _ & [T' [N' TT]] & TX & _).
  rewrite N in N'. injection N' as <-.
  unfold deliverWithOptionalStreaming.
  unfold bind at 1. unfold get at 1. rewrite C. cbn [negb].
  rewrite N. unfold effectiveThreadTsOf. rewrite TT.
  unfold tryCatch, bind at 1. unfold get at 1.
  unfold needsNewSession. rewrite S, TS, strictEquals_refl. cbn [negb].
  unfold bind at 1. unfold bind at 1.
  rewrite resolveStreamDelta_run. fold r. rewrite TD.
  unfold onStreamSession, bind at 1. unfold get at 1.
  cbn [streamSession setStreamedText]. rewrite S. unfold zoom.
  rewrite appendSlackStream_live by assumption. fold more. rewrite OK.
  cbn. destruct st; cbn in *. subst. reflexivity.
Qed.

(** *** The invariant of the router *)

Lemma routerInv_initial : routerInv (initialState d).
Proof. reflexivity. Qed.

Lemma routerInv_held (st : RouterState) (s : SlackStreamSession) :
  streamSession st = Some s -> routerInv st -> stopped s = false.
Proof. unfold routerInv. intros ->. auto. Qed.

Lemma routerInv_afterStop (st : RouterState) (tr : Trace) :
  routerInv st ->
  routerInv (afterStop throws st tr)
  /\ streamSession (afterStop throws st tr) = None.
Proof.
  unfold routerInv, afterStop.
  destruct (streamSession st) eqn:S; cbn; [auto|].
  rewrite S. auto.
Qed.

Lemma hoare_stopStreamIfActive :
  hoare routerInv (stopStreamIfActive throws)
    (fun _ st => routerInv st /\ streamSession st = None)
    (fun _ => False).
Proof.
  intros st tr H. rewrite stopStreamIfActive_run.
  apply routerInv_afterStop, H.
Qed.

Lemma hoare_deliverNormal (payload : ReplyPayload) (ts : option jsstring) :
  hoare routerInv (deliverNormal throws payload ts)
    (fun _ st => routerInv st /\ hasReplied (replyPlan st) = true)
    routerInv.
Proof.
  intros st tr H. rewrite deliverNormal_run.
  destruct (throws tr (DeliverReplies payload ts)); [exact H|].
  split; [exact H | reflexivity].
Qed.

(** The fallback of the [catch] clause. *)
Lemma hoare_fallback (payload : ReplyPayload) (ts : option jsstring) :
  hoare routerInv
    (modify (setStreamFailed true) ;;;
     stopStreamIfActive throws ;;;
     deliverNormal throws payload ts)
    (fun _ st => routerInv st /\ hasReplied (replyPlan st) = true)
    routerInv.
Proof.
  eapply hoare_bind with (R := fun _ => routerInv).
  { apply hoare_modify. intros st H. exact H. }
  intros _. eapply hoare_bind with (R := fun _ => routerInv).
  { eapply hoare_weaken; [apply hoare_stopStreamIfActive | auto | | ].
    - intros _ st [H _]. exact H.
    - intros st []. }
  intros _. apply hoare_deliverNormal.
Qed.

(** Opening a stream and recording it as the session held. *)
Lemma hoare_open (ets t : jsstring) :
  hoare routerInv
    (stopStreamIfActive throws ;;;
     session <- startSlackStream throws (messageChannel d) ets (Some t) None ;;
     modify (setStreamSession (Some session)) ;;;
     modify (setStreamedText t))
    (fun _ => routerInv)
    routerInv.
Proof.
  eapply hoare_bind with (R := fun _ => routerInv).
  { eapply hoare_weaken; [apply hoare_stopStreamIfActive | auto | | ].
    - intros _ st [H _]. exact H.
    - intros st []. }
  intros _. eapply hoare_bind.
  { apply hoare_startSlackStream. }
  intros session. cbv beta.
  eapply hoare_bind
    with (R := fun _ st => exists s, streamSession st = Some s /\ stopped s = false).
  - apply hoare_modify. intros st (_ & L & _). exists session. split; [reflexivity | exact L].
  - intros _. apply hoare_modify. intros st [s [S L]].
    unfold routerInv. cbn. rewrite S. exact L.
Qed.

Lemma appendSlackStream_keeps (t : jsstring) (s : SlackStreamSession) (tr : Trace) :
  snd (fst (appendSlackStream throws t s tr)) = s.
Proof.
  unfold appendSlackStream. unfold_async.
  destruct (negb (truthy t) || stopped s); [reflexivity|].
  destruct (throws tr (StreamerAppend (streamer s) t)); reflexivity.
Qed.

(** Appending the delta to the session held. *)
Lemma hoare_more (t : jsstring) :
  hoare (fun st => routerInv st /\ isSome (streamSession st) = true)
    (delta <- resolveStreamDelta t ;;
     if truthy delta
     then onStreamSession (appendSlackStream throws delta)
     else ret tt)
    (fun _ => routerInv)
    routerInv.
Proof.
  intros st tr [H S]. unfold bind. rewrite resolveStreamDelta_run.
  set (r := resolveDelta (streamedText st) t).
  assert (I : routerInv (setStreamedText (snd r) st)).
  { unfold routerInv in *. cbn.
    destruct (streamSession st); [exact H | discriminate S]. }
  destruct (truthy (fst r)); [|exact I].
  unfold onStreamSession, bind, get, zoom. cbn [streamSession setStreamedText].
  destruct (streamSession st) as [s|] eqn:E; [|discriminate S].
  pose proof (appendSlackStream_keeps (fst r) s tr) as K.
  destruct (appendSlackStream throws (fst r) s tr) as [[c s'] tr'].
  cbn in K. subst s'.
  assert (I' : routerInv (setStreamSession (Some s) (setStreamedText (snd r) st))).
  { unfold routerInv in *. cbn. rewrite E in H. exact H. }
  destruct c; exact I'.
Qed.

(** Every reply event leaves the router in a state that satisfies the
    invariant, and a delivery that completes normally has marked the
    plan as sent. *)
Lemma hoare_deliver (payload : ReplyPayload) (kind : ReplyDispatchKind) :
  hoare routerInv (deliver payload kind)
    (fun _ st => routerInv st /\ hasReplied (replyPlan st) = true)
    routerInv.
Proof.
  assert (D : forall ts,
    hoare routerInv
      (stopStreamIfActive throws ;;; deliverNormal throws payload ts)
      (fun _ st => routerInv st /\ hasReplied (replyPlan st) = true)
      routerInv).
  { intros ts. eapply hoare_bind with (R := fun _ => routerInv).
    - eapply hoare_weaken; [apply hoare_stopStreamIfActive | auto | | ].
      + intros _ st [H _]. exact H.
      + intros st [].
    - intros _. apply hoare_deliverNormal. }
  intros st tr H. unfold deliverWithOptionalStreaming.
  unfold bind at 1. unfold get at 1.
  destruct (canStreamText isSilentReplyText d st payload kind); cbn [negb];
    [|exact (D _ st tr H)].
  destruct (effectiveThreadTsOf (nextThreadTs (replyPlan st))) as [ets|];
    [|exact (D _ st tr H)].
  refine (@hoare_tryCatch RouterState unit routerInv _ _
            (fun _ st => routerInv st /\ hasReplied (replyPlan st) = true)
            routerInv routerInv _ _ st tr H);
    [|apply hoare_fallback].
  clear st tr H.
  eapply hoare_bind with (R := fun a st => routerInv st /\ a = st).
  { apply hoare_get. auto. }
  intros st0.
  eapply hoare_bind with (R := fun _ => routerInv).
  - destruct (needsNewSession st0 ets) eqn:NS.
    + eapply hoare_weaken; [apply hoare_open | | auto | auto].
      intros st [H _]. exact H.
    + eapply hoare_weaken; [apply hoare_more | | auto | auto].
      intros st [H <-]. split; [exact H|].
      unfold needsNewSession in NS.
      destruct (streamSession st0); [reflexivity | discriminate NS].
  - intros _. apply hoare_modify. intros st H. split; [exact H | reflexivity].
Qed.

(** *** The reply events of one response *)

Local Abbreviation deliverAll := (deliverEvents throws isSilentReplyText d).

(** The dispatcher logs what a delivery throws: the loop itself always
    completes normally, in a state that satisfies the invariant. *)
Lemma hoare_deliverEvents (events : list (ReplyPayload * ReplyDispatchKind)) :
  hoare routerInv (deliverAll events) (fun _ => routerInv) (fun _ => False).
Proof.
  induction events as [|[payload kind] rest IH].
  - apply hoare_ret. auto.
  - cbn [deliverEvents].
    eapply hoare_bind with (R := fun _ => routerInv); [|intros _; exact IH].
    eapply hoare_tryCatch with (R := routerInv).
    + eapply hoare_weaken; [apply hoare_deliver | auto | | auto].
      intros _ st [H _]. exact H.
    + apply hoare_ret. auto.
Qed.

Lemma sendsPayload_next (p0 : ReplyDeliveryPlan) (st : RouterState)
    (payload : ReplyPayload) (kind : ReplyDispatchKind) :
  samePlan p0 (replyPlan st) ->
  sendsPayload (replyToMode p0) (incomingThreadTs p0) (messageTs p0)
    (payload, kind) (DeliverReplies payload (nextThreadTs (replyPlan st))).
Proof.
  intros (M & I & T). exists (hasReplied (replyPlan st)).
  unfold nextThreadTs. rewrite M, I, T. reflexivity.
Qed.

(** One reply event in a state where [streamFailed] is set. *)
Lemma deliver_failed (payload : ReplyPayload) (kind : ReplyDispatchKind)
    (st : RouterState) (tr : Trace) :
  streamFailed st = true ->
  exists r st',
    deliver payload kind st tr =
      (r, st', tr ++ stopCalls st
                 ++ [DeliverReplies payload (nextThreadTs (replyPlan st))])
    /\ streamFailed st' = true
    /\ streamSession st' = None
    /\ samePlan (replyPlan st) (replyPlan st').
Proof.
  intros F. rewrite deliver_discrete by (apply streamFailed_cannot_stream, F).
  unfold discretely. rewrite deliverNormal_run, <- app_assoc.
  assert (A : streamFailed (afterStop throws st tr) = true
              /\ streamSession (afterStop throws st tr) = None
              /\ replyPlan (afterStop throws st tr) = replyPlan st).
  { unfold afterStop. destruct (streamSession st) eqn:S; cbn; rewrite ?F; auto. }
  destruct A as (A1 & A2 & A3).
  match goal with |- context [if ?b then _ else _] => destruct b end;
    eexists; eexists; (split; [reflexivity|]); cbn; rewrite ?A3;
    repeat split; auto.
Qed.

(** Once [streamFailed] is set it stays set, and every later reply
    event is delivered by one discrete send: no stream is opened and
    nothing is appended. *)
Lemma deliverEvents_failed (p0 : ReplyDeliveryPlan)
    (events : list (ReplyPayload * ReplyDispatchKind)) :
  forall (st : RouterState) (tr : Trace),
    streamFailed st = true ->
    samePlan p0 (replyPlan st) ->
    exists st' sends,
      deliverAll events st tr =
        (Normal tt, st',
         tr ++ (match events with [] => [] | _ :: _ => stopCalls st end) ++ sends)
      /\ Forall2 (sendsPayload (replyToMode p0) (incomingThreadTs p0) (messageTs p0))
           events sends
      /\ streamFailed st' = true
      /\ samePlan p0 (replyPlan st')
      /\ (events <> [] -> streamSession st' = None).
Proof.
  induction events as [|[payload kind] rest IH]; intros st tr F P.
  - exists st, []. cbn. rewrite app_nil_r.
    split; [reflexivity|]. split; [constructor|]. split; [exact F|].
    split; [exact P|]. intros C. destruct (C eq_refl).
  - destruct (deliver_failed payload kind st tr F) as (r & st1 & E & F1 & S1 & P1).
    assert (P1' : samePlan p0 (replyPlan st1)).
    { destruct P as (a & b & c), P1 as (a' & b' & c').
      repeat split; congruence. }
    destruct (IH st1 (tr ++ stopCalls st
                        ++ [DeliverReplies payload (nextThreadTs (replyPlan st))])
                F1 P1')
      as (st' & sends & E' & FA & F' & P' & S').
    exists (match rest with [] => st1 | _ :: _ => st' end),
           (DeliverReplies payload (nextThreadTs (replyPlan st)) :: sends).
    assert (N : stopCalls st1 = []) by (unfold stopCalls; rewrite S1; reflexivity).
    assert (X : deliverAll ((payload, kind) :: rest) st tr =
                deliverAll rest st1
                  (tr ++ stopCalls st
                      ++ [DeliverReplies payload (nextThreadTs (replyPlan st))])).
    { cbn [deliverEvents]. unfold bind, tryCatch. rewrite E.
      destruct r as [[]|]; reflexivity. }
    rewrite X, E'. rewrite N in E'.
    assert (Y : (match rest with [] => [] | _ :: _ => stopCalls st1 end) = []).
    { destruct rest; [reflexivity | exact N]. }
    rewrite Y. cbn [app].
    assert (Z : match rest with [] => st1 | _ :: _ => st' end = st').
    { destruct rest; [|reflexivity].
      cbn in E'. injection E' as E1 _. exact E1. }
    rewrite Z. split.
    { rewrite <- !app_assoc. reflexivity. }
    split; [constructor; [apply sendsPayload_next, P | exact FA]|].
    split; [exact F'|]. split; [exact P'|].
    intros _. destruct rest; [|apply S'; discriminate].
    cbn in E'. injection E' as <- _. exact S1.
Qed.

(** With thread-target mode [off] nothing is streamed: every reply
    event makes one discrete send that carries no thread. *)
Lemma deliverEvents_off (events : list (ReplyPayload * ReplyDispatchKind)) :
  forall (st : RouterState) (tr : Trace),
    replyToMode (replyPlan st) = ModeOff ->
    streamSession st = None ->
    exists st',
      deliverAll events st tr =
        (Normal tt, st',
         tr ++ List.map (fun e => DeliverReplies (fst e) None) events)
      /\ replyToMode (replyPlan st') = ModeOff
      /\ streamSession st' = None
      /\ streamedText st' = streamedText st.
Proof.
  induction events as [|[payload kind] rest IH]; intros st tr M S.
  - exists st. cbn. rewrite app_nil_r. auto.
  - assert (N : nextThreadTs (replyPlan st) = None).
    { unfold nextThreadTs. rewrite M. reflexivity. }
    cbn [deliverEvents List.map fst]. unfold bind, tryCatch.
    rewrite deliver_discrete
      by (apply effectiveThreadTsOf_none_cannot_stream; rewrite N; reflexivity).
    unfold discretely. rewrite deliverNormal_run, N.
    unfold afterStop, stopCalls. rewrite S, app_nil_r.
    destruct (throws tr (DeliverReplies payload None)).
    + destruct (IH st (tr ++ [DeliverReplies payload None]) M S)
        as (st' & E & M' & S' & T').
      exists st'. cbn [ret]. rewrite E, <- app_assoc. auto.
    + destruct (IH (setReplyPlan (markSent (replyPlan st)) st)
                  (tr ++ [DeliverReplies payload None]) M S)
        as (st' & E & M' & S' & T').
      exists st'. rewrite E, <- app_assoc. auto.
Qed.

Lemma eligible_intro (st : RouterState) (payload : ReplyPayload)
    (kind : ReplyDispatchKind) (T : jsstring) :
  useStreaming d = true ->
  streamFailed st = false ->
  isToolKind kind = false ->
  hasMedia payload = false ->
  nextThreadTs (replyPlan st) = Some T ->
  truthy (trim T) = true ->
  truthy (textOf payload) = true ->
  isSilentReplyText (textOf payload) = false ->
  eligible st payload kind = true.
Proof.
  intros U F K M N TT TX S. unfold canStreamText, effectiveThreadTsOf.
  rewrite U, F, K, M, N, TT, TX, S. cbn. rewrite TT. reflexivity.
Qed.

(** *** One whole response *)

Lemma deliverEvents_initial (events : list (ReplyPayload * ReplyDispatchKind)) :
  exists st1 tr1,
    deliverAll events (initialState d) [] = (Normal tt, st1, tr1)
    /\ routerInv st1.
Proof.
  pose proof (hoare_deliverEvents events (initialState d) [] routerInv_initial) as H.
  destruct (deliverAll events (initialState d) []) as [[[[]|] st1] tr1];
    [|destruct H].
  exists st1, tr1. split; [reflexivity | exact H].
Qed.

Lemma dispatchResult_run (events : list (ReplyPayload * ReplyDispatchKind))
    (generatorThrows : bool) (st st1 : RouterState) (tr tr1 : Trace) :
  deliverAll events st tr = (Normal tt, st1, tr1) ->
  dispatchInboundMessage throws isSilentReplyText d events generatorThrows st tr
    = (if generatorThrows then Throw else Normal tt, st1, tr1)
  /\ dispatchResult throws isSilentReplyText d events generatorThrows st tr
    = (if generatorThrows then Throw else Normal tt,
       afterStop throws st1 tr1, tr1 ++ stopCalls st1).
Proof.
  intros E.
  assert (X : dispatchInboundMessage throws isSilentReplyText d events
                generatorThrows st tr
              = (if generatorThrows then Throw else Normal tt, st1, tr1)).
  { unfold dispatchInboundMessage, bind. rewrite E.
    destruct generatorThrows; reflexivity. }
  split; [exact X|].
  unfold dispatchResult, tryFinally. rewrite X.
  unfold markDispatchIdle, bind, ret. rewrite stopStreamIfActive_run.
  reflexivity.
Qed.

(** C4.  After all reply events of one response have been processed,
    whether the upstream generator returned or threw, the router stops
    the stream session still active, if any, with exactly one transport
    stop call, and clears the session and the tracked text; only then
    does the exception of the generator propagate.  The cleanup is
    idempotent: run again, it calls nothing and changes nothing. *)
Theorem C4_teardown_guarantee (events : list (ReplyPayload * ReplyDispatchKind))
    (generatorThrows : bool) :
  exists (st1 : RouterState) (tr1 : Trace) (st' : RouterState) (tr' : Trace),
    dispatchInboundMessage throws isSilentReplyText d events generatorThrows
      (initialState d) []
      = (if generatorThrows then Throw else Normal tt, st1, tr1)
    /\ runResponse throws isSilentReplyText d events generatorThrows
      = (if generatorThrows then Throw else Normal tt, st', tr')
    /\ tr' = tr1 ++ match streamSession st1 with
                    | Some s => [StreamerStop (streamer s) None]
                    | None => []
                    end
    /\ streamSession st' = None
    /\ streamedText st' = []
    /\ stopStreamIfActive throws st' tr' = (Normal tt, st', tr').
Proof.
  destruct (deliverEvents_initial events) as (st1 & tr1 & E & I).
  destruct (dispatchResult_run events generatorThrows _ _ E) as [X Y].
  exists st1, tr1, (afterStop throws st1 tr1), (tr1 ++ stopCalls st1).
  destruct (routerInv_afterStop st1 tr1 I) as [I2 S2].
  split; [exact X|]. split; [exact Y|]. split.
  { unfold stopCalls. destruct (streamSession st1) as [s|] eqn:S; [|reflexivity].
    rewrite (routerInv_held st1 S I). reflexivity. }
  split; [exact S2|]. split.
  { unfold routerInv in I2. rewrite S2 in I2. exact I2. }
  apply stopStreamIfActive_none, S2.
Qed.

(** C7.  With thread-target mode [off] the resolved thread target is
    empty: whatever the streaming configuration, streaming is off for
    the response, no stream call is made, and each reply payload makes
    exactly one discrete send, which carries no thread. *)
Theorem C7_no_thread_fallback (events : list (ReplyPayload * ReplyDispatchKind))
    (generatorThrows : bool) :
  inputReplyToMode d = ModeOff ->
  useStreaming d = false
  /\ nextThreadTs (replyPlan (initialState d)) = None
  /\ exists st',
       runResponse throws isSilentReplyText d events generatorThrows
       = (if generatorThrows then Throw else Normal tt, st',
          List.map (fun e => DeliverReplies (fst e) None) events).
Proof.
  intros M. split; [|split].
  - unfold useStreaming. rewrite M. cbn.
    destruct (configStreaming d) as [[|]|]; reflexivity.
  - unfold nextThreadTs. cbn. rewrite M. reflexivity.
  - destruct (deliverEvents_off events (initialState d) [] M eq_refl)
      as (st1 & E & _ & S & _).
    destruct (dispatchResult_run events generatorThrows _ _ E) as [_ Y].
    exists (afterStop throws st1 ([] ++ List.map (fun e => DeliverReplies (fst e) None) events)).
    unfold runResponse. rewrite Y.
    unfold stopCalls. rewrite S, app_nil_r. reflexivity.
Qed.

(** C9.  When stopping the active stream session throws, the router
    catches the error: [stopStreamIfActive] completes normally, the
    session and the tracked text are cleared, and [streamFailed] is
    set.  From any state in which that flag is set, every later payload
    of the response is delivered by one discrete send, no stream is
    opened or appended to, and the flag stays set. *)
Theorem C9_stop_failure_is_sticky (st : RouterState) (tr : Trace)
    (session : SlackStreamSession) :
  streamSession st = Some session ->
  stopped session = false ->
  throws tr (StreamerStop (streamer session) None) = true ->
  stopStreamIfActive throws st tr =
    (Normal tt,
     {| replyPlan := replyPlan st; streamSession := None;
        streamFailed := true; streamedText := [] |},
     tr ++ [StreamerStop (streamer session) None])
  /\ forall (st2 : RouterState) (tr2 : Trace)
        (events : list (ReplyPayload * ReplyDispatchKind)),
      streamFailed st2 = true ->
      exists st' sends,
        deliverAll events st2 tr2 =
          (Normal tt, st',
           tr2 ++ (match events with [] => [] | _ :: _ => stopCalls st2 end)
               ++ sends)
        /\ Forall2 (sendsPayload (replyToMode (replyPlan st2))
                      (incomingThreadTs (replyPlan st2))
                      (messageTs (replyPlan st2))) events sends
        /\ streamFailed st' = true.
Proof.
  intros S L F. split.
  - rewrite stopStreamIfActive_run. unfold afterStop, stopCalls, stopThrows.
    rewrite S, L, F. cbn. rewrite orb_true_r. reflexivity.
  - intros st2 tr2 events F2.
    destruct (deliverEvents_failed events st2 tr2 F2 (samePlan_refl (replyPlan st2)))
      as (st' & sends & E & FA & F' & _).
    exists st', sends. auto.
Qed.

Lemma sendsPayload_calls (mode : ReplyToMode) (incoming message : option jsstring)
    (events : list (ReplyPayload * ReplyDispatchKind)) (sends : Trace) :
  Forall2 (sendsPayload mode incoming message) events sends ->
  List.filter isStreamCall sends = []
  /\ List.filter isDiscreteSend sends = sends.
Proof.
  induction 1 as [|e c es cs [replied ->] _ [IH1 IH2]]; [split; reflexivity|].
  cbn. rewrite IH1, IH2. split; reflexivity.
Qed.

Lemma discreteSends_sendsPayload (p0 plan : ReplyDeliveryPlan) (tr0 : Trace)
    (events : list (ReplyPayload * ReplyDispatchKind)) :
  samePlan p0 plan ->
  Forall2 (sendsPayload (replyToMode p0) (incomingThreadTs p0) (messageTs p0))
    events (discreteSends throws plan tr0 events).
Proof.
  revert plan tr0. induction events as [|[payload kind] rest IH]; intros plan tr0 P.
  - constructor.
  - cbn [discreteSends]. constructor.
    + destruct P as (M & I & T). exists (hasReplied plan).
      unfold nextThreadTs. rewrite M, I, T. reflexivity.
    + apply IH.
      destruct (throws tr0 (DeliverReplies payload (nextThreadTs plan)));
        [exact P | apply samePlan_markSent, P].
Qed.

(** Under mode [first], once the plan is marked as sent, every discrete
    send goes without thread. *)
Lemma discreteSends_first_replied (plan : ReplyDeliveryPlan) (tr0 : Trace)
    (events : list (ReplyPayload * ReplyDispatchKind)) :
  replyToMode plan = ModeFirst ->
  hasReplied plan = true ->
  Forall2 (fun e c => c = DeliverReplies (fst e) None)
    events (discreteSends throws plan tr0 events).
Proof.
  revert plan tr0. induction events as [|[payload kind] rest IH]; intros plan tr0 M R.
  - constructor.
  - cbn [discreteSends]. constructor.
    + unfold nextThreadTs. rewrite M, R. reflexivity.
    + destruct (throws tr0 (DeliverReplies payload (nextThreadTs plan)));
        apply IH; auto.
Qed.

(** The reply events of a response for which streaming has failed or is
    off, from a state without session: the trace grows by exactly the
    discrete sends. *)
Lemma deliverEvents_discretely (events : list (ReplyPayload * ReplyDispatchKind)) :
  forall (st : RouterState) (tr : Trace),
    streamFailed st = true \/ useStreaming d = false ->
    streamSession st = None ->
    exists st',
      deliverAll events st tr
        = (Normal tt, st', tr ++ discreteSends throws (replyPlan st) tr events)
      /\ streamSession st' = None
      /\ streamFailed st' = streamFailed st.
Proof.
  induction events as [|[payload kind] rest IH]; intros st tr H S.
  - exists st. cbn. rewrite app_nil_r. auto.
  - assert (C : eligible st payload kind = false).
    { destruct H as [F|U].
      - apply streamFailed_cannot_stream, F.
      - unfold canStreamText. rewrite U. reflexivity. }
    cbn [deliverEvents discreteSends]. unfold bind, tryCatch.
    rewrite deliver_discrete by exact C. unfold discretely.
    rewrite deliverNormal_run. unfold afterStop, stopCalls. rewrite S, app_nil_r.
    set (send := DeliverReplies payload (nextThreadTs (replyPlan st))).
    destruct (throws tr send).
    + destruct (IH st (tr ++ [send]) H S) as (st' & E & S' & F').
      exists st'. cbn [ret]. rewrite E, <- app_assoc. auto.
    + destruct (IH (setReplyPlan (markSent (replyPlan st)) st) (tr ++ [send]) H S)
        as (st' & E & S' & F').
      exists st'. rewrite E, <- app_assoc. auto.
Qed.

(** C3, amended.  If the first append transport call of a stream (so
    the first of the response) fails, [streamFailed] is set and stays
    set, the router holds no session, and the payload that failed and
    every subsequent payload of the response are each delivered by one
    discrete send, addressed to the thread target the plan resolves when
    that payload is handled, the plan being marked as sent by each
    discrete send that does not throw ([discreteSends]).  So the payload
    that failed goes to the original thread target; under mode [all] so
    does every later payload; under mode [first] the later payloads go
    without thread once the send of the payload that failed has
    succeeded, and the next payload goes to the original thread target
    again when that send threw.  No stream is opened or appended to
    again within the response. *)
Theorem C3_first_append_failure (st : RouterState) (tr : Trace)
    (payload : ReplyPayload) (kind : ReplyDispatchKind)
    (rest : list (ReplyPayload * ReplyDispatchKind)) (T : jsstring) :
  streamSession st = None ->
  eligible st payload kind = true ->
  nextThreadTs (replyPlan st) = Some T ->
  throws tr (ChatStream (messageChannel d) (trim T) None) = false ->
  throws (tr ++ [ChatStream (messageChannel d) (trim T) None])
    (StreamerAppend (List.length tr) (textOf payload)) = true ->
  let failed := tr ++ [ChatStream (messageChannel d) (trim T) None;
                       StreamerAppend (List.length tr) (textOf payload)] in
  exists st' calls,
    deliverAll ((payload, kind) :: rest) st tr = (Normal tt, st', failed ++ calls)
    /\ streamFailed st' = true
    /\ streamSession st' = None
    /\ List.filter isStreamCall calls = []
    /\ Forall2 (sendsPayload (replyToMode (replyPlan st))
                  (incomingThreadTs (replyPlan st)) (messageTs (replyPlan st)))
         ((payload, kind) :: rest) (List.filter isDiscreteSend calls)
    /\ hd_error (List.filter isDiscreteSend calls)
       = Some (DeliverReplies payload (Some T))
    /\ (replyToMode (replyPlan st) = ModeAll ->
        Forall2 (fun e c => c = DeliverReplies (fst e) (Some T))
          ((payload, kind) :: rest) (List.filter isDiscreteSend calls))
    /\ List.filter isDiscreteSend calls
       = discreteSends throws (replyPlan st) failed ((payload, kind) :: rest)
    /\ (replyToMode (replyPlan st) = ModeFirst ->
        throws failed (DeliverReplies payload (Some T)) = false ->
        Forall2 (fun e c => c = DeliverReplies (fst e) None)
          rest (tl (List.filter isDiscreteSend calls)))
    /\ (replyToMode (replyPlan st) = ModeFirst ->
        throws failed (DeliverReplies payload (Some T)) = true ->
        forall next kind' rest',
          rest = (next, kind') :: rest' ->
          nth_error (List.filter isDiscreteSend calls) 1
          = Some (DeliverReplies next (Some T))).
Proof.
  intros S C N OK KO failed.
  set (open := ChatStream (messageChannel d) (trim T) None) in *.
  set (seed := StreamerAppend (List.length tr) (textOf payload)) in *.
  set (send := DeliverReplies payload (Some T)).
  assert (FE : (tr ++ [open]) ++ [seed] = failed).
  { unfold failed. rewrite <- app_assoc. reflexivity. }
  pose proof (deliver_start payload kind st tr S C N) as D.
  cbv zeta in D. fold open seed in D. rewrite OK, KO in D.
  rewrite deliverNormal_run in D. fold send in D. rewrite FE in D.
  set (plan1 := if throws failed send then replyPlan st else markSent (replyPlan st)).
  set (st1 := if throws failed send
              then setStreamFailed true st
              else setReplyPlan (markSent (replyPlan (setStreamFailed true st)))
                     (setStreamFailed true st)) in *.
  assert (A : streamFailed st1 = true /\ streamSession st1 = None
              /\ replyPlan st1 = plan1).
  { unfold st1, plan1. destruct (throws failed send); cbn; repeat split; auto. }
  destruct A as (F1 & S1 & P1).
  destruct (deliverEvents_discretely rest st1 (failed ++ [send]) (or_introl F1) S1)
    as (st' & E & S' & F').
  rewrite P1 in E.
  set (sends := discreteSends throws plan1 (failed ++ [send]) rest) in *.
  assert (X : deliverAll ((payload, kind) :: rest) st tr
              = (Normal tt, st', failed ++ send :: sends)).
  { cbn [deliverEvents]. unfold bind, tryCatch. rewrite D.
    replace (failed ++ send :: sends) with ((failed ++ [send]) ++ sends)
      by (rewrite <- app_assoc; reflexivity).
    destruct (throws failed send); exact E. }
  assert (DS : send :: sends
               = discreteSends throws (replyPlan st) failed ((payload, kind) :: rest)).
  { cbn [discreteSends]. rewrite N. reflexivity. }
  assert (FA' : Forall2 (sendsPayload (replyToMode (replyPlan st))
                           (incomingThreadTs (replyPlan st))
                           (messageTs (replyPlan st)))
                  ((payload, kind) :: rest) (send :: sends)).
  { rewrite DS. apply discreteSends_sendsPayload, samePlan_refl. }
  destruct (sendsPayload_calls FA') as [NS FS].
  exists st', (send :: sends). rewrite NS, FS.
  split; [exact X|]. split; [rewrite F'; exact F1|]. split; [exact S'|].
  split; [reflexivity|]. split; [exact FA'|]. split; [reflexivity|].
  split; [|split; [exact DS|split]].
  - intros M. revert FA'. apply Forall2_impl.
    intros e c [replied ->]. rewrite M, resolveSlackThreadTs_all.
    unfold nextThreadTs in N. rewrite M, resolveSlackThreadTs_all in N.
    rewrite N. reflexivity.
  - intros M OKsend. cbn [tl]. unfold sends, plan1. rewrite OKsend.
    apply discreteSends_first_replied; [exact M | reflexivity].
  - intros M KOsend next kind' rest' ->. cbn [nth_error].
    unfold sends, plan1. rewrite KOsend. cbn [discreteSends nth_error].
    rewrite N. reflexivity.
Qed.

(** C5.  Under streaming-eligible conditions and a transport that does
    not fail, the two block replies "first block" and then
    "first block second block" open exactly one stream, whose first
    append carries the full initial text and whose second append
    carries only the added suffix; no discrete send occurs, and the
    stream is stopped exactly once. *)
Theorem C5_streaming_happy_path (T : jsstring) :
  (forall tr c, throws tr c = false) ->
  configStreaming d = Some true ->
  inputReplyToMode d = ModeAll ->
  threadIdentifier (messageThreadTs d) (messageOwnTs d) = Some T ->
  truthy (trim T) = true ->
  isSilentReplyText (lit "first block") = false ->
  isSilentReplyText (lit "first block second block") = false ->
  exists st',
    runResponse throws isSilentReplyText d
      [(textPayload (lit "first block"), KindBlock);
       (textPayload (lit "first block second block"), KindBlock)] false
    = (Normal tt, st',
       [ChatStream (messageChannel d) (trim T) None;
        StreamerAppend 0 (lit "first block");
        StreamerAppend 0 (lit " second block");
        StreamerStop 0 None])
    /\ streamSession st' = None
    /\ streamFailed st' = false.
Proof.
  intros OK CS M TI TT S1 S2.
  assert (U : useStreaming d = true).
  { unfold useStreaming. rewrite CS, M, resolveSlackThreadTs_all, TI. cbn.
    destruct T; [discriminate TT | reflexivity]. }
  set (p1 := textPayload (lit "first block")).
  set (p2 := textPayload (lit "first block second block")).
  assert (N0 : nextThreadTs (replyPlan (initialState d)) = Some T).
  { unfold nextThreadTs. cbn. rewrite M. exact TI. }
  assert (C1 : eligible (initialState d) p1 KindBlock = true).
  { apply eligible_intro with (T := T); auto. }
  pose proof (deliver_start p1 KindBlock (initialState d) [] eq_refl C1 N0) as D1.
  cbv zeta in D1. rewrite !OK in D1.
  set (s := {| streamer := List.length (@nil TransportCall);
               channel := messageChannel d; threadTs := trim T;
               stopped := false |}) in *.
  set (st1 := {| replyPlan := markSent (replyPlan (initialState d));
                 streamSession := Some s;
                 streamFailed := streamFailed (initialState d);
                 streamedText := textOf p1 |}) in *.
  assert (N1 : nextThreadTs (replyPlan st1) = Some T).
  { unfold nextThreadTs. cbn. rewrite M. exact TI. }
  assert (C2 : eligible st1 p2 KindBlock = true).
  { apply eligible_intro with (T := T); auto. }
  set (tr1 := ([] ++ [ChatStream (messageChannel d) (trim T) None])
                ++ [StreamerAppend (List.length (@nil TransportCall)) (textOf p1)]) in *.
  pose proof (@deliver_append p2 KindBlock st1 tr1 T s eq_refl eq_refl eq_refl C2 N1
                eq_refl (OK _ _)) as D2.
  cbv zeta in D2.
  assert (E : deliverAll [(p1, KindBlock); (p2, KindBlock)] (initialState d) []
              = (Normal tt,
                 {| replyPlan := markSent (replyPlan st1); streamSession := Some s;
                    streamFailed := streamFailed st1;
                    streamedText :=
                      snd (resolveDelta (streamedText st1) (textOf p2)) |},
                 tr1 ++ [StreamerAppend (streamer s)
                           (fst (resolveDelta (streamedText st1) (textOf p2)))])).
  { cbn [deliverEvents]. unfold bind, tryCatch. rewrite D1, D2. reflexivity. }
  destruct (dispatchResult_run _ false _ _ E) as [_ Y].
  eexists. unfold runResponse. rewrite Y.
  unfold afterStop, stopCalls, stopThrows. cbn. rewrite OK. cbn.
  split; [reflexivity|]. split; reflexivity.
Qed.

End RouterFacts.

(* ===================================================================== *)
(** ** The thread-target planner *)
(* ===================================================================== *)

Lemma markSent_idempotent (p : ReplyDeliveryPlan) : markSent (markSent p) = markSent p.
Proof. reflexivity. Qed.

Lemma nextThreadTs_first_replied (p : ReplyDeliveryPlan) :
  replyToMode p = ModeFirst -> nextThreadTs (markSent p) = None.
Proof. intros M. unfold nextThreadTs. cbn. rewrite M. reflexivity. Qed.

Lemma iter_markSent (n : nat) (p : ReplyDeliveryPlan) :
  Nat.iter (S n) markSent p = markSent p.
Proof.
  induction n as [|n IH]; [reflexivity|].
  change (Nat.iter (S (S n)) markSent p) with (markSent (Nat.iter (S n) markSent p)).
  rewrite IH. apply markSent_idempotent.
Qed.

(** C8.  With thread-target mode [first], the first reply of a response
    resolves the incoming thread identifier as its target, and every
    subsequent reply of the same response, that is, after [markSent] has
    run once or more, resolves no target; [markSent] is idempotent: a
    second call leaves [hasReplied] true and changes nothing else. *)
Theorem C8_first_reply_threading (t : jsstring) (message : option jsstring)
    (n : nat) (p : ReplyDeliveryPlan) :
  let plan := {| replyToMode := ModeFirst; incomingThreadTs := Some t;
                 messageTs := message; hasReplied := false |} in
  nextThreadTs plan = Some t
  /\ nextThreadTs (Nat.iter (S n) markSent plan) = None
  /\ hasReplied (markSent p) = true
  /\ markSent (markSent p) = markSent p
  /\ samePlan p (markSent p).
Proof.
  cbv zeta. split; [reflexivity|]. split.
  - rewrite iter_markSent. apply nextThreadTs_first_replied. reflexivity.
  - split; [reflexivity|]. split; [reflexivity|].
    apply samePlan_markSent, samePlan_refl.
Qed.

(* ===================================================================== *)
(** ** The scenarios of the streaming tests *)
(* ===================================================================== *)

(** C3, as stated, fails.  With thread-target mode [first] and a first
    append that throws, the payload that failed is sent to the thread
    "123", but the next payload is sent with no thread; and the trace
    holds no stop call for the stream that was opened. *)
Lemma C3_counterexample :
  ~ (forall (throws : Trace -> TransportCall -> bool)
            (isSilentReplyText : jsstring -> bool) (d : DispatchInput)
            (payload : ReplyPayload) (kind : ReplyDispatchKind)
            (rest : list (ReplyPayload * ReplyDispatchKind)) (T : jsstring),
        canStreamText isSilentReplyText d (initialState d) payload kind = true ->
        nextThreadTs (replyPlan (initialState d)) = Some T ->
        throws [] (ChatStream (messageChannel d) (trim T) None) = false ->
        throws [ChatStream (messageChannel d) (trim T) None]
          (StreamerAppend 0 (textOf payload)) = true ->
        exists st' calls,
          deliverEvents throws isSilentReplyText d ((payload, kind) :: rest)
            (initialState d) []
          = (Normal tt, st',
             [ChatStream (messageChannel d) (trim T) None;
              StreamerAppend 0 (textOf payload)] ++ calls)
          /\ (exists ft, In (StreamerStop 0 ft) calls)
          /\ Forall2 (fun e c => c = DeliverReplies (fst e) (Some T))
               ((payload, kind) :: rest) (List.filter isDiscreteSend calls)
          /\ List.filter isStreamCall calls = []
          /\ streamFailed st' = true).
Proof.
  intros H.
  destruct (H firstAppendThrows tokenOnly (directMessage ModeFirst (Some true))
              (textPayload (lit "first block")) KindBlock
              [(textPayload (lit "second block"), KindBlock)] (lit "123")
              eq_refl eq_refl eq_refl eq_refl)
    as (st' & calls & E & _ & F & _).
  vm_compute in E. injection E as _ <-.
  vm_compute in F.
  inversion F as [|? ? ? ? _ F']. inversion F' as [|? ? ? ? C _].
  discriminate C.
Qed.

Lemma C3_first_append_failure_witness :
  exists st' calls,
    deliverEvents firstAppendThrows tokenOnly (directMessage ModeFirst (Some true))
      twoBlocks (initialState (directMessage ModeFirst (Some true))) []
    = (Normal tt, st',
       [ChatStream (lit "C1") (lit "123") None;
        StreamerAppend 0 (lit "first block")] ++ calls)
    /\ streamFailed st' = true
    /\ streamSession st' = None
    /\ List.filter isStreamCall calls = []
    /\ List.filter isDiscreteSend calls
       = [DeliverReplies (textPayload (lit "first block")) (Some (lit "123"));
          DeliverReplies (textPayload (lit "second block")) None].
Proof.
  destruct (@C3_first_append_failure firstAppendThrows tokenOnly
              (directMessage ModeFirst (Some true))
              (initialState (directMessage ModeFirst (Some true))) []
              (textPayload (lit "first block")) KindBlock
              [(textPayload (lit "second block"), KindBlock)] (lit "123")
              eq_refl eq_refl eq_refl eq_refl eq_refl)
    as (st' & calls & E & F & S & NS & _ & _ & _ & DS & _).
  exists st', calls.
  split; [exact E|]. split; [exact F|]. split; [exact S|]. split; [exact NS|].
  exact DS.
Defined.

Lemma C5_streaming_happy_path_witness :
  exists st',
    runResponse neverThrows tokenOnly (directMessage ModeAll (Some true))
      [(textPayload (lit "first block"), KindBlock);
       (textPayload (lit "first block second block"), KindBlock)] false
    = (Normal tt, st',
       [ChatStream (lit "C1") (trim (lit "123")) None;
        StreamerAppend 0 (lit "first block");
        StreamerAppend 0 (lit " second block");
        StreamerStop 0 None])
    /\ streamSession st' = None
    /\ streamFailed st' = false.
Proof.
  apply (@C5_streaming_happy_path neverThrows tokenOnly
           (directMessage ModeAll (Some true)) (lit "123")).
  - reflexivity.
  - reflexivity.
  - reflexivity.
  - reflexivity.
  - reflexivity.
  - reflexivity.
  - reflexivity.
Defined.

Lemma C7_no_thread_fallback_witness :
  useStreaming (directMessage ModeOff (Some true)) = false
  /\ nextThreadTs (replyPlan (initialState (directMessage ModeOff (Some true)))) = None
  /\ exists st',
       runResponse neverThrows tokenOnly (directMessage ModeOff (Some true))
         [(textPayload (lit "normal reply"), KindFinal)] false
       = (Normal tt, st',
          List.map (fun e => DeliverReplies (fst e) None)
            [(textPayload (lit "normal reply"), KindFinal)]).
Proof.
  apply (@C7_no_thread_fallback neverThrows tokenOnly
           (directMessage ModeOff (Some true))
           [(textPayload (lit "normal reply"), KindFinal)] false).
  reflexivity.
Defined.

Lemma C9_stop_failure_is_sticky_witness :
  stopStreamIfActive stopThrowsAlways streamingState
    [ChatStream (lit "C1") (lit "123") None; StreamerAppend 0 (lit "first block")]
  = (Normal tt,
     {| replyPlan := replyPlan streamingState; streamSession := None;
        streamFailed := true; streamedText := [] |},
     [ChatStream (lit "C1") (lit "123") None; StreamerAppend 0 (lit "first block")]
       ++ [StreamerStop 0 None])
  /\ exists st' sends,
       deliverEvents stopThrowsAlways tokenOnly (directMessage ModeAll (Some true))
         twoBlocks (setStreamFailed true streamingState) []
       = (Normal tt, st', [] ++ stopCalls (setStreamFailed true streamingState) ++ sends)
       /\ Forall2 (sendsPayload ModeAll None (Some (lit "123"))) twoBlocks sends
       /\ streamFailed st' = true.
Proof.
  pose proof (@C9_stop_failure_is_sticky stopThrowsAlways tokenOnly
                (directMessage ModeAll (Some true)) streamingState
                [ChatStream (lit "C1") (lit "123") None;
                 StreamerAppend 0 (lit "first block")]
                liveSession eq_refl eq_refl eq_refl) as [A B].
  split; [exact A|].
  exact (B (setStreamFailed true streamingState) [] twoBlocks eq_refl).
Defined.

(* ===================================================================== *)
(** ** The tests of [monitor.streaming.test.ts], replayed *)
(* ===================================================================== *)

(** "streams threaded block replies into a single live-updating message":
    one [chatStream] call for channel "C1" and thread "123", two append
    calls, one stop call, no send. *)
Example test_streams_threaded_block_replies :
  runResponse neverThrows tokenOnly (directMessage ModeAll (Some true))
    twoBlocks false
  = (Normal tt,
     {| replyPlan := markSent (replyPlan (initialState (directMessage ModeAll (Some true))));
        streamSession := None; streamFailed := false; streamedText := [] |},
     [ChatStream (lit "C1") (lit "123") None;
      StreamerAppend 0 (lit "first block");
      StreamerAppend 0 (LF :: lit "second block");
      StreamerStop 0 None]).
Proof. vm_compute. reflexivity. Qed.

(** "falls back to normal delivery for the rest of the response after
    stream API failure": one [chatStream] call, then two sends, both with
    [threadTs] "123".  The stream whose first append threw gets no stop
    call: it was never recorded as the session of the router. *)
Example test_falls_back_after_stream_failure :
  runResponse firstAppendThrows tokenOnly (directMessage ModeAll (Some true))
    twoBlocks false
  = (Normal tt,
     {| replyPlan := markSent (replyPlan (initialState (directMessage ModeAll (Some true))));
        streamSession := None; streamFailed := true; streamedText := [] |},
     [ChatStream (lit "C1") (lit "123") None;
      StreamerAppend 0 (lit "first block");
      DeliverReplies (textPayload (lit "first block")) (Some (lit "123"));
      DeliverReplies (textPayload (lit "second block")) (Some (lit "123"))]).
Proof. vm_compute. reflexivity. Qed.

(** "falls back to normal delivery when thread_ts is unavailable": no
    [chatStream] call, one send with [threadTs] undefined. *)
Example test_falls_back_without_thread :
  runResponse neverThrows tokenOnly (directMessage ModeOff (Some true))
    [(textPayload (lit "normal reply"), KindFinal)] false
  = (Normal tt,
     {| replyPlan := markSent (replyPlan (initialState (directMessage ModeOff (Some true))));
        streamSession := None; streamFailed := false; streamedText := [] |},
     [DeliverReplies (textPayload (lit "normal reply")) None]).
Proof. vm_compute. reflexivity. Qed.

(** A generator that throws after a stream was started: the stream is
    stopped, and the response completes abruptly. *)
Example teardown_when_generator_throws :
  runResponse neverThrows tokenOnly (directMessage ModeAll (Some true))
    [(textPayload (lit "first block"), KindBlock)] true
  = (Throw,
     {| replyPlan := markSent (replyPlan (initialState (directMessage ModeAll (Some true))));
        streamSession := None; streamFailed := false; streamedText := [] |},
     [ChatStream (lit "C1") (lit "123") None;
      StreamerAppend 0 (lit "first block");
      StreamerStop 0 None]).
Proof. vm_compute. reflexivity. Qed.


(* ===================================================================== *)
(** ** More on the delta resolver *)
(* ===================================================================== *)

Lemma startsWith_refl (a : jsstring) : startsWith a a = true.
Proof. rewrite <- (app_nil_r a) at 1. apply startsWith_app. Qed.

Lemma startsWith_antisym (a b : jsstring) :
  startsWith a b = true -> startsWith b a = true -> a = b.
Proof.
  intros H1 H2. apply startsWith_spec in H1 as [t Ht].
  apply startsWith_length in H2. subst a. rewrite length_app in H2.
  destruct t; [apply app_nil_r | simpl in H2; lia].
Qed.

Lemma startsWith_nil_l (n : jsstring) : startsWith [] n = true -> n = [].
Proof. destruct n; [reflexivity | discriminate]. Qed.

Lemma resolveDelta_fst_nil (streamed nextText : jsstring) :
  fst (resolveDelta streamed nextText) = [] <-> startsWith streamed nextText = true.
Proof.
  unfold resolveDelta. destruct streamed as [|c s]; cbn [truthy negb fst].
  - split; [intros ->; reflexivity | apply startsWith_nil_l].
  - destruct (strictEquals nextText (c :: s)) eqn:E.
    + apply strictEquals_spec in E. subst. cbn [fst]. rewrite startsWith_refl.
      split; reflexivity.
    + destruct (startsWith nextText (c :: s)) eqn:P.
      * cbn [fst]. split.
        -- intros Z. apply startsWith_spec in P as [t ->].
           rewrite slice_app in Z. subst t. rewrite app_nil_r, strictEquals_refl in E.
           discriminate E.
        -- intros Q. rewrite (startsWith_antisym _ _ P Q), strictEquals_refl in E.
           discriminate E.
      * destruct (startsWith (c :: s) nextText); cbn [fst]; split;
          (reflexivity || discriminate).
Qed.

(** X1.  The delta is empty exactly when the next text is a prefix of
    the tracked snapshot (equal to it, or a shrink): only then does the
    router have nothing to append. *)
Theorem X1_delta_empty_iff_prefix (streamed nextText : jsstring) :
  fst (resolveDelta streamed nextText) = [] <-> startsWith streamed nextText = true.
Proof. apply resolveDelta_fst_nil. Qed.

Lemma resolveDelta_append_only (streamed nextText : jsstring) :
  negb (startsWith streamed nextText) || strictEquals nextText streamed = true ->
  snd (resolveDelta streamed nextText)
  = streamed ++ fst (resolveDelta streamed nextText).
Proof.
  intros H. unfold resolveDelta. destruct streamed as [|c s]; cbn [truthy negb].
  - reflexivity.
  - destruct (strictEquals nextText (c :: s)) eqn:E.
    + cbn [fst snd]. rewrite app_nil_r. reflexivity.
    + rewrite orb_false_r in H. apply negb_true_iff in H.
      destruct (startsWith nextText (c :: s)) eqn:P.
      * cbn [fst snd]. apply startsWith_spec in P as [t ->].
        rewrite slice_app. reflexivity.
      * rewrite H. reflexivity.
Qed.

(** X2.  The stream is append-only and the tracked snapshot follows it:
    over any run of snapshots in which no text shrinks to a proper prefix
    of the text tracked, the snapshot tracked at the end is the initial
    one followed by all the deltas returned.  A shrink, on the contrary,
    returns the empty delta and tracks the shorter text. *)
Theorem X2_snapshot_is_what_was_streamed (streamed : jsstring)
    (texts : list jsstring) (nextText : jsstring) :
  (neverShrinks streamed texts = true ->
   snd (resolveAll streamed texts) = streamed ++ concat (fst (resolveAll streamed texts)))
  /\ (startsWith streamed nextText = true ->
      nextText <> streamed ->
      resolveDelta streamed nextText = ([], nextText)
      /\ List.length nextText < List.length streamed).
Proof.
  split.
  - revert streamed. induction texts as [|n rest IH]; intros streamed H.
    + cbn. rewrite app_nil_r. reflexivity.
    + cbn [neverShrinks] in H. apply andb_true_iff in H as [H1 H2].
      cbn [resolveAll fst snd concat].
      rewrite (IH _ H2), (resolveDelta_append_only _ _ H1), <- app_assoc.
      reflexivity.
  - intros P N. split.
    + unfold resolveDelta. destruct streamed as [|c s].
      * apply startsWith_nil_l in P. contradiction.
      * cbn [truthy negb]. rewrite (strictEquals_false N).
        destruct (startsWith nextText (c :: s)) eqn:Q.
        -- destruct N. symmetry. apply startsWith_antisym; assumption.
        -- rewrite P. reflexivity.
    + apply startsWith_spec in P as [t ->]. rewrite length_app.
      destruct t; [rewrite app_nil_r in N; contradiction | simpl; lia].
Qed.

Lemma X2_snapshot_is_what_was_streamed_witness :
  snd (resolveAll [] [lit "a"; lit "ab"; lit "x"])
  = [] ++ concat (fst (resolveAll [] [lit "a"; lit "ab"; lit "x"]))
  /\ resolveDelta (lit "ab") (lit "a") = ([], lit "a")
  /\ List.length (lit "a") < List.length (lit "ab").
Proof.
  pose proof (X2_snapshot_is_what_was_streamed [] [lit "a"; lit "ab"; lit "x"]
                (lit "a")) as [A _].
  pose proof (X2_snapshot_is_what_was_streamed (lit "ab") [] (lit "a")) as [_ B].
  split.
  - apply A. reflexivity.
  - apply B; [reflexivity | discriminate].
Defined.

(* ===================================================================== *)
(** ** More on the stream session and the router *)
(* ===================================================================== *)

Section RouterPaths.

Variable throws : Trace -> TransportCall -> bool.
Variable isSilentReplyText : jsstring -> bool.
Variable d : DispatchInput.

Local Abbreviation deliver1 :=
  (deliverWithOptionalStreaming throws isSilentReplyText d).
Local Abbreviation eligible1 := (canStreamText isSilentReplyText d).

Lemma startSlackStream_run {St : Type} (ch ts : jsstring) (t : option jsstring)
    (bs : option N) (st : St) (tr : Trace) :
  startSlackStream throws ch ts t bs st tr =
  let open := ChatStream ch ts bs in
  let session := {| streamer := List.length tr; channel := ch;
                    threadTs := ts; stopped := false |} in
  if throws tr open then (Throw, st, tr ++ [open])
  else match finalTextOf t with
       | Some seedText =>
           let seed := StreamerAppend (List.length tr) seedText in
           if throws (tr ++ [open]) seed
           then (Throw, st, (tr ++ [open]) ++ [seed])
           else (Normal session, st, (tr ++ [open]) ++ [seed])
       | None => (Normal session, st, tr ++ [open])
       end.
Proof.
  unfold startSlackStream, chatStream, bind, finalTextOf. cbv zeta.
  destruct (throws tr (ChatStream ch ts bs)); [reflexivity|].
  destruct t as [t|]; [|reflexivity].
  destruct (truthy t) eqn:T; [|reflexivity].
  unfold local. rewrite appendSlackStream_live by (exact T || reflexivity).
  cbn [streamer].
  destruct (throws (tr ++ [ChatStream ch ts bs]) (StreamerAppend (List.length tr) t));
    reflexivity.
Qed.

(** X3.  [startSlackStream] never stops anything and never touches the
    state of its caller.  It throws exactly when its [chatStream] call or
    its seed append throws; when the seed append throws, the stream has
    been opened but no session is returned for it.  A session it returns
    is live and scoped to the channel and thread asked for. *)
Theorem X3_startSlackStream (St : Type) (ch ts : jsstring) (t : option jsstring)
    (bs : option N) (st : St) (tr : Trace) :
  exists r calls,
    startSlackStream throws ch ts t bs st tr = (r, st, tr ++ calls)
    /\ List.filter (fun c => match c with StreamerStop _ _ => true | _ => false end)
         calls = []
    /\ (r = Throw <->
        throws tr (ChatStream ch ts bs) = true
        \/ exists seedText,
             finalTextOf t = Some seedText
             /\ calls = [ChatStream ch ts bs; StreamerAppend (List.length tr) seedText]
             /\ throws (tr ++ [ChatStream ch ts bs])
                  (StreamerAppend (List.length tr) seedText) = true)
    /\ (forall session, r = Normal session ->
        session = {| streamer := List.length tr; channel := ch;
                     threadTs := ts; stopped := false |}).
Proof.
  rewrite startSlackStream_run. cbv zeta.
  destruct (throws tr (ChatStream ch ts bs)) eqn:O.
  - exists Throw, [ChatStream ch ts bs]. split; [reflexivity|]. split; [reflexivity|].
    split; [split; auto | discriminate].
  - destruct (finalTextOf t) as [seedText|] eqn:F.
    + destruct (throws (tr ++ [ChatStream ch ts bs])
                  (StreamerAppend (List.length tr) seedText)) eqn:A.
      * exists Throw, [ChatStream ch ts bs; StreamerAppend (List.length tr) seedText].
        rewrite <- app_assoc. split; [reflexivity|]. split; [reflexivity|].
        split; [|discriminate].
        split; [|reflexivity]. intros _. right. exists seedText. auto.
      * eexists (Normal _),
          [ChatStream ch ts bs; StreamerAppend (List.length tr) seedText].
        rewrite <- app_assoc. split; [reflexivity|]. split; [reflexivity|].
        split.
        -- split; [discriminate|]. intros [C|(x & E & _ & C)]; [discriminate C|].
           injection E as <-. rewrite A in C. discriminate C.
        -- intros session E. injection E as <-. reflexivity.
    + eexists (Normal _), [ChatStream ch ts bs].
      split; [reflexivity|]. split; [reflexivity|]. split.
      * split; [discriminate|]. intros [C|(x & E & _)]; discriminate.
      * intros session E. injection E as <-. reflexivity.
Qed.

(** X4.  The variables of the router stay consistent over every reply
    event, whatever the transport does and however the delivery
    completes: a session the router holds has not been stopped, and
    without a session the tracked text is empty. *)
Theorem X4_router_invariant (payload : ReplyPayload) (kind : ReplyDispatchKind)
    (st : RouterState) (tr : Trace) :
  routerInv st ->
  routerInv (snd (fst (deliver1 payload kind st tr))).
Proof.
  intros H.
  pose proof (hoare_deliver throws isSilentReplyText d payload kind st tr H) as P.
  destruct (deliver1 payload kind st tr) as [[[[]|] st'] tr']; cbn.
  - exact (proj1 P).
  - exact P.
Qed.

(** *** The plan is marked exactly when a delivery succeeded *)

Lemma hoare_plan_stop (p0 : ReplyDeliveryPlan) :
  hoare (fun st => replyPlan st = p0) (stopStreamIfActive throws)
    (fun _ st => replyPlan st = p0) (fun _ => False).
Proof.
  intros st tr H. rewrite stopStreamIfActive_run.
  unfold afterStop. destruct (streamSession st); exact H.
Qed.

Lemma hoare_plan_deliverNormal (p0 : ReplyDeliveryPlan) (payload : ReplyPayload)
    (ts : option jsstring) :
  hoare (fun st => replyPlan st = p0) (deliverNormal throws payload ts)
    (fun _ st => replyPlan st = markSent p0) (fun st => replyPlan st = p0).
Proof.
  intros st tr H. rewrite deliverNormal_run.
  destruct (throws tr (DeliverReplies payload ts)); [exact H|].
  cbn. rewrite H. reflexivity.
Qed.

Lemma hoare_plan_discrete (p0 : ReplyDeliveryPlan) (payload : ReplyPayload)
    (ts : option jsstring) :
  hoare (fun st => replyPlan st = p0)
    (stopStreamIfActive throws ;;; deliverNormal throws payload ts)
    (fun _ st => replyPlan st = markSent p0) (fun st => replyPlan st = p0).
Proof.
  eapply hoare_bind with (R := fun _ st => replyPlan st = p0).
  - eapply hoare_weaken; [apply (@hoare_plan_stop p0) | auto | auto | ].
    intros st [].
  - intros _. apply hoare_plan_deliverNormal.
Qed.

Lemma hoare_plan_body (p0 : ReplyDeliveryPlan) (ets t : jsstring) :
  hoare (fun st => replyPlan st = p0)
    (st <- get ;;
     (if needsNewSession st ets then
        stopStreamIfActive throws ;;;
        session <- startSlackStream throws (messageChannel d) ets (Some t) None ;;
        modify (setStreamSession (Some session)) ;;;
        modify (setStreamedText t)
      else
        delta <- resolveStreamDelta t ;;
        if truthy delta
        then onStreamSession (appendSlackStream throws delta)
        else ret tt) ;;;
     modify (fun st => setReplyPlan (markSent (replyPlan st)) st))
    (fun _ st => replyPlan st = markSent p0) (fun st => replyPlan st = p0).
Proof.
  eapply hoare_bind with (R := fun _ st => replyPlan st = p0).
  { apply hoare_get. auto. }
  intros st0.
  eapply hoare_bind with (R := fun _ st => replyPlan st = p0).
  2:{ intros _. apply hoare_modify. intros st H. cbn. rewrite H. reflexivity. }
  destruct (needsNewSession st0 ets).
  - eapply hoare_bind with (R := fun _ st => replyPlan st = p0).
    { eapply hoare_weaken; [apply (@hoare_plan_stop p0) | auto | auto | ].
      intros st []. }
    intros _. eapply hoare_bind.
    { apply hoare_startSlackStream. }
    intros session. cbv beta.
    eapply hoare_bind with (R := fun _ st => replyPlan st = p0).
    + apply hoare_modify. intros st [H _]. exact H.
    + intros _. apply hoare_modify. intros st H. exact H.
  - intros st tr H. unfold bind. rewrite resolveStreamDelta_run.
    destruct (truthy (fst (resolveDelta (streamedText st) t))); [|exact H].
    unfold onStreamSession, bind, get, zoom, throw.
    cbn [streamSession setStreamedText].
    destruct (streamSession st) as [s|]; [|exact H].
    destruct (appendSlackStream throws (fst (resolveDelta (streamedText st) t)) s tr)
      as [[[[]|] s'] tr']; exact H.
Qed.

Lemma hoare_plan_deliver (p0 : ReplyDeliveryPlan) (payload : ReplyPayload)
    (kind : ReplyDispatchKind) :
  hoare (fun st => replyPlan st = p0) (deliver1 payload kind)
    (fun _ st => replyPlan st = markSent p0) (fun st => replyPlan st = p0).
Proof.
  intros st tr H. subst p0. unfold deliverWithOptionalStreaming.
  unfold bind at 1. unfold get at 1.
  destruct (canStreamText isSilentReplyText d st payload kind); cbn [negb];
    [|exact (@hoare_plan_discrete (replyPlan st) payload _ st tr eq_refl)].
  destruct (effectiveThreadTsOf (nextThreadTs (replyPlan st))) as [ets|];
    [|exact (@hoare_plan_discrete (replyPlan st) payload _ st tr eq_refl)].
  refine (@hoare_tryCatch RouterState unit (fun st' => replyPlan st' = replyPlan st)
            _ _ (fun _ st' => replyPlan st' = markSent (replyPlan st))
            (fun st' => replyPlan st' = replyPlan st)
            (fun st' => replyPlan st' = replyPlan st) _ _ st tr eq_refl).
  - apply hoare_plan_body.
  - eapply hoare_bind with (R := fun _ st' => replyPlan st' = replyPlan st).
    + apply hoare_modify. intros st' E. exact E.
    + intros _. apply hoare_plan_discrete.
Qed.

(** X5.  [markSent] runs exactly when the payload was delivered: a
    delivery that completes normally leaves the plan marked as sent, and
    a delivery that throws leaves the plan as it was, so that under mode
    [first] the next reply still resolves the thread. *)
Theorem X5_plan_marked_iff_delivered (payload : ReplyPayload)
    (kind : ReplyDispatchKind) (st : RouterState) (tr : Trace) :
  match deliver1 payload kind st tr with
  | (Normal _, st', _) => replyPlan st' = markSent (replyPlan st)
  | (Throw, st', _) => replyPlan st' = replyPlan st
  end.
Proof. exact (@hoare_plan_deliver (replyPlan st) payload kind st tr eq_refl). Qed.

(** *** The paths of one reply event *)

(** X6.  A payload that may not be streamed (a tool result, a payload
    with media, an empty or silent text, a response for which streaming
    is off or has failed, or a reply without thread target) is never
    streamed: the router stops the stream it holds, if any, makes exactly
    one discrete send to the thread target resolved for the payload, and
    completes as that send does. *)
Theorem X6_ineligible_payload_is_sent_discretely (payload : ReplyPayload)
    (kind : ReplyDispatchKind) (st : RouterState) (tr : Trace) :
  kind = KindTool
  \/ hasMedia payload = true
  \/ truthy (textOf payload) = false
  \/ isSilentReplyText (textOf payload) = true
  \/ useStreaming d = false
  \/ streamFailed st = true
  \/ effectiveThreadTsOf (nextThreadTs (replyPlan st)) = None ->
  let send := DeliverReplies payload (nextThreadTs (replyPlan st)) in
  exists st',
    deliver1 payload kind st tr =
      (if throws (tr ++ stopCalls st) send then Throw else Normal tt, st',
       tr ++ stopCalls st ++ [send])
    /\ streamSession st' = None
    /\ (streamFailed st = true -> streamFailed st' = true).
Proof.
  intros H send.
  assert (C : eligible1 st payload kind = false).
  { unfold canStreamText.
    destruct H as [ -> | [ -> | [ -> | [ -> | [ -> | [ -> | -> ]]]]]]; cbn;
      rewrite ?andb_false_r; reflexivity. }
  rewrite deliver_discrete by exact C. unfold discretely.
  rewrite deliverNormal_run, <- app_assoc.
  assert (P : replyPlan (afterStop throws st tr) = replyPlan st).
  { unfold afterStop. destruct (streamSession st); reflexivity. }
  assert (S : streamSession (afterStop throws st tr) = None).
  { unfold afterStop. destruct (streamSession st) eqn:E; [reflexivity | exact E]. }
  assert (F : streamFailed st = true -> streamFailed (afterStop throws st tr) = true).
  { intros F. unfold afterStop. destruct (streamSession st); cbn; rewrite ?F; reflexivity. }
  fold send.
  destruct (throws (tr ++ stopCalls st) send); eexists; (split; [reflexivity|]);
    split; auto.
Qed.

(** One reply event on the session already held for the thread. *)
Lemma deliver_on_session (payload : ReplyPayload) (kind : ReplyDispatchKind)
    (st : RouterState) (tr : Trace) (T : jsstring) (s : SlackStreamSession) :
  streamSession st = Some s ->
  stopped s = false ->
  threadTs s = trim T ->
  eligible1 st payload kind = true ->
  nextThreadTs (replyPlan st) = Some T ->
  let r := resolveDelta (streamedText st) (textOf payload) in
  let more := StreamerAppend (streamer s) (fst r) in
  let stop := StreamerStop (streamer s) None in
  deliver1 payload kind st tr =
  if negb (truthy (fst r)) then
    (Normal tt,
     {| replyPlan := markSent (replyPlan st); streamSession := Some s;
        streamFailed := streamFailed st; streamedText := snd r |},
     tr)
  else if throws tr more then
    deliverNormal throws payload (Some T)
      {| replyPlan := replyPlan st; streamSession := None;
         streamFailed := true; streamedText := [] |}
      ((tr ++ [more]) ++ [stop])
  else
    (Normal tt,
     {| replyPlan := markSent (replyPlan st); streamSession := Some s;
        streamFailed := streamFailed st; streamedText := snd r |},
     tr ++ [more]).
Proof.
  intros S L TS C N r more stop.
  destruct (canStreamText_true _ _ _ _ _ C) as (_ & _ & _ & _ & [T' [N' TT]] & TX & _).
  rewrite N in N'. injection N' as <-.
  unfold deliverWithOptionalStreaming.
  unfold bind at 1. unfold get at 1. rewrite C. cbn [negb].
  rewrite N. unfold effectiveThreadTsOf. rewrite TT.
  unfold tryCatch, bind at 1. unfold get at 1.
  unfold needsNewSession. rewrite S, TS, strictEquals_refl. cbn [negb].
  unfold bind at 1. unfold bind at 1.
  rewrite resolveStreamDelta_run. fold r.
  destruct (truthy (fst r)) eqn:TD; cbn [negb].
  - unfold onStreamSession, bind at 1. unfold get at 1.
    cbn [streamSession setStreamedText]. rewrite S. unfold zoom.
    rewrite appendSlackStream_live by assumption. fold more.
    destruct (throws tr more).
    + unfold bind at 1. unfold modify at 1. unfold bind at 1.
      rewrite stopStreamIfActive_run.
      unfold afterStop, stopCalls, stopThrows. cbn. rewrite L. fold stop.
      reflexivity.
    + cbn. destruct st; cbn in *. subst. reflexivity.
  - cbn. destruct st; cbn in *. subst. reflexivity.
Qed.

(** X7.  A snapshot that adds nothing (the text equals the tracked
    snapshot, or is a prefix of it) makes no transport call at all: the
    delivery completes normally, the plan is marked as sent and the
    session stays open. *)
Theorem X7_no_call_without_new_text (payload : ReplyPayload)
    (kind : ReplyDispatchKind) (st : RouterState) (tr : Trace) (T : jsstring)
    (s : SlackStreamSession) :
  streamSession st = Some s ->
  stopped s = false ->
  threadTs s = trim T ->
  eligible1 st payload kind = true ->
  nextThreadTs (replyPlan st) = Some T ->
  startsWith (streamedText st) (textOf payload) = true ->
  exists st',
    deliver1 payload kind st tr = (Normal tt, st', tr)
    /\ streamSession st' = Some s
    /\ streamedText st' = (if strictEquals (textOf payload) (streamedText st)
                           then streamedText st else textOf payload)
    /\ hasReplied (replyPlan st') = true.
Proof.
  intros S L TS C N P.
  rewrite (@deliver_on_session payload kind st tr T s S L TS C N). cbv zeta.
  pose proof (proj2 (resolveDelta_fst_nil _ _) P) as Z. rewrite Z. cbn [truthy negb].
  eexists. split; [reflexivity|]. split; [reflexivity|]. split; [|reflexivity].
  cbn [streamedText]. unfold resolveDelta in *.
  destruct (canStreamText_true _ _ _ _ _ C) as (_ & _ & _ & _ & _ & TX & _).
  destruct (streamedText st) as [|c u] eqn:U.
  - apply startsWith_nil_l in P. rewrite P in TX. discriminate TX.
  - cbn [truthy negb] in *.
    destruct (strictEquals (textOf payload) (c :: u)); [reflexivity|].
    destruct (startsWith (textOf payload) (c :: u)).
    + cbn [fst] in Z. cbn [snd]. reflexivity.
    + rewrite P. reflexivity.
Qed.

(** X8.  When an append on the session held fails, the router does stop
    that session: the calls of the event are the append that threw, the
    stop of the stream, and the discrete send of the payload to its
    thread target; streaming is marked as failed and no session is
    held. *)
Theorem X8_later_append_failure_stops_the_stream (payload : ReplyPayload)
    (kind : ReplyDispatchKind) (st : RouterState) (tr : Trace) (T : jsstring)
    (s : SlackStreamSession) :
  streamSession st = Some s ->
  stopped s = false ->
  threadTs s = trim T ->
  eligible1 st payload kind = true ->
  nextThreadTs (replyPlan st) = Some T ->
  let delta := fst (resolveDelta (streamedText st) (textOf payload)) in
  truthy delta = true ->
  throws tr (StreamerAppend (streamer s) delta) = true ->
  exists r st',
    deliver1 payload kind st tr =
      (r, st',
       tr ++ [StreamerAppend (streamer s) delta;
              StreamerStop (streamer s) None;
              DeliverReplies payload (Some T)])
    /\ streamSession st' = None
    /\ streamFailed st' = true
    /\ streamedText st' = [].
Proof.
  intros S L TS C N delta TD F.
  rewrite (@deliver_on_session payload kind st tr T s S L TS C N). cbv zeta.
  fold delta. rewrite TD, F. cbn [negb].
  rewrite deliverNormal_run, <- !app_assoc. cbn [app].
  match goal with |- context [if ?b then _ else _] => destruct b end;
    eexists; eexists; (split; [reflexivity|]); repeat split.
Qed.

(** X9.  When the thread target differs from the thread of the session
    held, the router stops that session before it opens a stream for the
    new thread, and the new session replaces the old one.  A stop that
    throws does not prevent the new stream, but it leaves [streamFailed]
    set. *)
Theorem X9_thread_change_stops_then_opens (payload : ReplyPayload)
    (kind : ReplyDispatchKind) (st : RouterState) (tr : Trace) (T : jsstring)
    (s : SlackStreamSession) :
  streamSession st = Some s ->
  stopped s = false ->
  threadTs s <> trim T ->
  eligible1 st payload kind = true ->
  nextThreadTs (replyPlan st) = Some T ->
  let stop := StreamerStop (streamer s) None in
  let open := ChatStream (messageChannel d) (trim T) None in
  let seed := StreamerAppend (S (List.length tr)) (textOf payload) in
  throws (tr ++ [stop]) open = false ->
  throws ((tr ++ [stop]) ++ [open]) seed = false ->
  deliver1 payload kind st tr =
    (Normal tt,
     {| replyPlan := markSent (replyPlan st);
        streamSession :=
          Some {| streamer := S (List.length tr); channel := messageChannel d;
                  threadTs := trim T; stopped := false |};
        streamFailed := throws tr stop;
        streamedText := textOf payload |},
     tr ++ [stop; open; seed]).
Proof.
  intros S0 L TS C N stop open seed OK1 OK2.
  destruct (canStreamText_true _ _ _ _ _ C) as (_ & F & _ & _ & [T' [N' TT]] & TX & _).
  rewrite N in N'. injection N' as <-.
  unfold deliverWithOptionalStreaming.
  unfold bind at 1. unfold get at 1. rewrite C. cbn [negb].
  rewrite N. unfold effectiveThreadTsOf. rewrite TT.
  unfold tryCatch, bind at 1. unfold get at 1.
  unfold needsNewSession. rewrite S0, (strictEquals_false TS). cbn [negb].
  unfold bind at 1. unfold bind at 1.
  rewrite stopStreamIfActive_run.
  unfold stopCalls. rewrite S0, L. fold stop.
  unfold bind at 1. rewrite startSlackStream_run. cbv zeta.
  assert (LEN : List.length (tr ++ [stop]) = S (List.length tr)).
  { rewrite length_app. simpl. lia. }
  rewrite LEN. unfold finalTextOf. rewrite TX. fold open seed. rewrite OK1, OK2.
  unfold afterStop, stopThrows. rewrite S0, L, F. cbn.
  rewrite <- !app_assoc. reflexivity.
Qed.

(** *** A response for which streaming is off *)

Lemma deliverEvents_disabled (p0 : ReplyDeliveryPlan)
    (events : list (ReplyPayload * ReplyDispatchKind)) :
  useStreaming d = false ->
  forall (st : RouterState) (tr : Trace),
    streamSession st = None ->
    samePlan p0 (replyPlan st) ->
    exists st' sends,
      deliverEvents throws isSilentReplyText d events st tr
        = (Normal tt, st', tr ++ sends)
      /\ Forall2 (sendsPayload (replyToMode p0) (incomingThreadTs p0) (messageTs p0))
           events sends
      /\ streamSession st' = None
      /\ streamFailed st' = streamFailed st.
Proof.
  intros U. induction events as [|[payload kind] rest IH]; intros st tr S0 P.
  - exists st, []. cbn. rewrite app_nil_r. repeat split; auto.
  - assert (C : eligible1 st payload kind = false).
    { unfold canStreamText. rewrite U. reflexivity. }
    cbn [deliverEvents]. unfold bind, tryCatch.
    rewrite deliver_discrete by exact C. unfold discretely.
    rewrite deliverNormal_run. unfold afterStop, stopCalls. rewrite S0, app_nil_r.
    set (send := DeliverReplies payload (nextThreadTs (replyPlan st))).
    assert (SP : sendsPayload (replyToMode p0) (incomingThreadTs p0) (messageTs p0)
                   (payload, kind) send) by (apply sendsPayload_next, P).
    destruct (throws tr send).
    + destruct (IH st (tr ++ [send]) S0 P) as (st' & sends & E & FA & S' & F').
      exists st', (send :: sends). cbn [ret]. rewrite E, <- app_assoc.
      repeat split; auto.
    + destruct (IH (setReplyPlan (markSent (replyPlan st)) st) (tr ++ [send]) S0 P)
        as (st' & sends & E & FA & S' & F').
      exists st', (send :: sends). rewrite E, <- app_assoc.
      repeat split; auto.
Qed.

(** X10.  When [account.config.streaming] is not [true], or the thread
    hint of the response is empty, nothing is ever streamed: the trace of
    the whole response is exactly one discrete send per reply event, in
    order, each to the thread target the plan resolves when that event is
    handled, the plan being marked as sent by each send that does not
    throw ([discreteSends]); no stop call is made at the end. *)
Theorem X10_streaming_off_is_discrete (events : list (ReplyPayload * ReplyDispatchKind))
    (generatorThrows : bool) :
  useStreaming d = false ->
  exists st' sends,
    runResponse throws isSilentReplyText d events generatorThrows
      = (if generatorThrows then Throw else Normal tt, st', sends)
    /\ sends = discreteSends throws (replyPlan (initialState d)) [] events
    /\ Forall2 (sendsPayload (inputReplyToMode d) (messageThreadTs d) (messageOwnTs d))
         events sends
    /\ streamFailed st' = false.
Proof.
  intros U.
  destruct (deliverEvents_discretely throws isSilentReplyText d events
              (initialState d) [] (or_intror U) eq_refl)
    as (st1 & E & S1 & F1).
  destruct (dispatchResult_run throws isSilentReplyText d events generatorThrows
              _ _ E) as [_ Y].
  exists (afterStop throws st1
            ([] ++ discreteSends throws (replyPlan (initialState d)) [] events)),
         (discreteSends throws (replyPlan (initialState d)) [] events).
  unfold runResponse. rewrite Y. unfold stopCalls, afterStop. rewrite S1, app_nil_r.
  split; [reflexivity|]. split; [reflexivity|]. split; [|exact F1].
  exact (@discreteSends_sendsPayload throws (replyPlan (initialState d))
           (replyPlan (initialState d)) [] events
           (samePlan_refl (replyPlan (initialState d)))).
Qed.

End RouterPaths.

(* ===================================================================== *)
(** ** The use of stream handles over a response *)
(* ===================================================================== *)

Lemma snoc_split (A : Type) (a b tr : list A) (x c : A) :
  a ++ x :: b = tr ++ [c] ->
  (b = [] /\ a = tr /\ x = c) \/ (exists b', b = b' ++ [c] /\ tr = a ++ x :: b').
Proof.
  intros H. destruct (exists_last (l := x :: b)) as (l' & y & E); [discriminate|].
  destruct b as [|z b].
  - left. change (a ++ [x] = tr ++ [c]) in H. apply app_inj_tail in H as [-> ->].
    auto.
  - right. destruct (exists_last (l := z :: b)) as (b' & w & E'); [discriminate|].
    rewrite E' in H.
    change (a ++ x :: b' ++ [w]) with (a ++ (x :: b') ++ [w]) in H.
    rewrite app_assoc in H. apply app_inj_tail in H as [<- <-].
    exists b'. split; [exact E' | reflexivity].
Qed.

Lemma usedIn_snoc (id : nat) (tr : Trace) (c : TransportCall) :
  usedIn id (tr ++ [c]) = usedIn id tr || usesStreamer id c.
Proof. unfold usedIn. rewrite existsb_app. cbn. rewrite orb_false_r. reflexivity. Qed.

Lemma stoppedIn_snoc (id : nat) (tr : Trace) (c : TransportCall) :
  stoppedIn id (tr ++ [c]) = stoppedIn id tr || stopsStreamer id c.
Proof. unfold stoppedIn. rewrite existsb_app. cbn. rewrite orb_false_r. reflexivity. Qed.

Lemma stoppedIn_mid (id : nat) (a b : Trace) (x : option jsstring) :
  stoppedIn id (a ++ StreamerStop id x :: b) = true.
Proof.
  unfold stoppedIn. rewrite existsb_app. cbn. rewrite Nat.eqb_refl, orb_true_r.
  reflexivity.
Qed.

Lemma noUseAfterStop_nil : noUseAfterStop [].
Proof. intros [|? ?] b id x H; discriminate H. Qed.

Lemma noUseAfterStop_snoc (tr : Trace) (c : TransportCall) :
  noUseAfterStop tr ->
  (forall id, usesStreamer id c = true -> stoppedIn id tr = false) ->
  noUseAfterStop (tr ++ [c]).
Proof.
  intros H F a b id x E. symmetry in E.
  apply snoc_split in E as [(-> & _ & _)|(b' & -> & ->)]; [reflexivity|].
  rewrite usedIn_snoc, (H a b' id x eq_refl). cbn.
  destruct (usesStreamer id c) eqn:U; [|reflexivity].
  specialize (F id U). rewrite (stoppedIn_mid id a b' x) in F. discriminate F.
Qed.

Lemma usesOpened_nil : usesOpened [].
Proof. intros [|? ?] b c id H; discriminate H. Qed.

Lemma nth_error_ChatStream_app (a b : Trace) (id : nat) :
  (exists ch ts bs, nth_error a id = Some (ChatStream ch ts bs)) ->
  exists ch ts bs, nth_error (a ++ b) id = Some (ChatStream ch ts bs).
Proof.
  intros (ch & ts & bs & E). exists ch, ts, bs.
  rewrite nth_error_app1; [exact E|]. apply nth_error_Some. congruence.
Qed.

Lemma usesOpened_snoc (tr : Trace) (c : TransportCall) :
  usesOpened tr ->
  (forall id, usesStreamer id c = true ->
     exists ch ts bs, nth_error tr id = Some (ChatStream ch ts bs)) ->
  usesOpened (tr ++ [c]).
Proof.
  intros H F a b c' id E U. symmetry in E.
  apply snoc_split in E as [(-> & -> & ->)|(b' & -> & ->)].
  - apply F, U.
  - apply (H a b' c' id eq_refl U).
Qed.

(** A streamer used in a trace was opened in it: the handle that the
    next [chatStream] call returns is fresh. *)
Lemma usesOpened_fresh (tr : Trace) (id : nat) :
  usesOpened tr -> List.length tr <= id -> usedIn id tr = false.
Proof.
  intros H L. destruct (usedIn id tr) eqn:U; [|reflexivity].
  unfold usedIn in U. apply existsb_exists in U as (c & I & Uc).
  apply in_split in I as (a & b & ->).
  destruct (H a b c id eq_refl Uc) as (ch & ts & bs & E).
  assert (id < List.length a) by (apply nth_error_Some; congruence).
  rewrite length_app in L. lia.
Qed.

Lemma stoppedIn_usedIn (id : nat) (tr : Trace) :
  usedIn id tr = false -> stoppedIn id tr = false.
Proof.
  unfold usedIn, stoppedIn. induction tr as [|c tr IH]; [reflexivity|].
  cbn. intros H. apply orb_false_iff in H as [H1 H2]. rewrite (IH H2), orb_false_r.
  destruct c; try reflexivity. exact H1.
Qed.

Lemma acceptedAreStopped_nil (throws : Trace -> TransportCall -> bool)
    (held : option nat) :
  acceptedAreStopped throws held [].
Proof. intros a b id t H. destruct a; discriminate H. Qed.

Lemma acceptedAreStopped_snoc (throws : Trace -> TransportCall -> bool)
    (held held' : option nat) (tr : Trace) (c : TransportCall) :
  acceptedAreStopped throws held tr ->
  (forall id, held = Some id -> held' = Some id \/ stopsStreamer id c = true) ->
  (forall id t, c = StreamerAppend id t -> throws tr c = false -> held' = Some id) ->
  acceptedAreStopped throws held' (tr ++ [c]).
Proof.
  intros H K N a b id t E OK. symmetry in E.
  apply snoc_split in E as [(-> & -> & <-)|(b' & -> & ->)].
  - right. apply (N id t eq_refl OK).
  - rewrite stoppedIn_snoc.
    destruct (H a b' id t eq_refl OK) as [S|S].
    + left. rewrite S. reflexivity.
    + destruct (K id S) as [K1|K1]; [right; exact K1|].
      left. rewrite K1. apply orb_true_r.
Qed.

Section TraceLogic.

Context {St : Type}.

Lemma hoareT_ret {A} (P : St -> Trace -> Prop) (a : A)
    (Q : A -> St -> Trace -> Prop) (E : St -> Trace -> Prop) :
  (forall st tr, P st tr -> Q a st tr) -> hoareT P (ret a) Q E.
Proof. intros H st tr HP. cbn. auto. Qed.

Lemma hoareT_get (P : St -> Trace -> Prop) (Q : St -> St -> Trace -> Prop)
    (E : St -> Trace -> Prop) :
  (forall st tr, P st tr -> Q st st tr) -> hoareT P get Q E.
Proof. intros H st tr HP. cbn. auto. Qed.

Lemma hoareT_modify (P : St -> Trace -> Prop) (f : St -> St)
    (Q : unit -> St -> Trace -> Prop) (E : St -> Trace -> Prop) :
  (forall st tr, P st tr -> Q tt (f st) tr) -> hoareT P (modify f) Q E.
Proof. intros H st tr HP. cbn. auto. Qed.

Lemma hoareT_bind {A B} (P : St -> Trace -> Prop) (m : Async St A)
    (k : A -> Async St B) (R : A -> St -> Trace -> Prop)
    (Q : B -> St -> Trace -> Prop) (E : St -> Trace -> Prop) :
  hoareT P m R E ->
  (forall a, hoareT (R a) (k a) Q E) ->
  hoareT P (bind m k) Q E.
Proof.
  intros Hm Hk st tr HP. specialize (Hm st tr HP). unfold bind.
  destruct (m st tr) as [[[a|] st'] tr']; [|exact Hm].
  apply (Hk a st' tr' Hm).
Qed.

Lemma hoareT_tryCatch {A} (P : St -> Trace -> Prop) (body handler : Async St A)
    (Q : A -> St -> Trace -> Prop) (R E : St -> Trace -> Prop) :
  hoareT P body Q R ->
  hoareT R handler Q E ->
  hoareT P (tryCatch body handler) Q E.
Proof.
  intros Hb Hh st tr HP. specialize (Hb st tr HP). unfold tryCatch.
  destruct (body st tr) as [[[a|] st'] tr']; [exact Hb|].
  apply (Hh st' tr' Hb).
Qed.

Lemma hoareT_weaken {A} (P P' : St -> Trace -> Prop) (m : Async St A)
    (Q Q' : A -> St -> Trace -> Prop) (E E' : St -> Trace -> Prop) :
  hoareT P' m Q' E' ->
  (forall st tr, P st tr -> P' st tr) ->
  (forall a st tr, Q' a st tr -> Q a st tr) ->
  (forall st tr, E' st tr -> E st tr) ->
  hoareT P m Q E.
Proof.
  intros H HP HQ HE st tr Hst. specialize (H st tr (HP st tr Hst)).
  destruct (m st tr) as [[[a|] st'] tr']; auto.
Qed.

End TraceLogic.

Section TraceInvariant.

Variable throws : Trace -> TransportCall -> bool.

Lemma heldIsOpen_snoc (held : option SlackStreamSession) (tr : Trace)
    (c : TransportCall) :
  heldIsOpen held tr ->
  (forall s, held = Some s -> stopsStreamer (streamer s) c = false) ->
  heldIsOpen held (tr ++ [c]).
Proof.
  destruct held as [s|]; [|auto]. intros (L & N & O) F.
  split; [exact L|]. split.
  - rewrite stoppedIn_snoc, N, (F s eq_refl). reflexivity.
  - apply nth_error_ChatStream_app, O.
Qed.

Lemma traceInv_initial (d : DispatchInput) : traceInv throws (initialState d) [].
Proof.
  repeat split.
  - apply noUseAfterStop_nil.
  - apply usesOpened_nil.
  - apply acceptedAreStopped_nil.
Qed.

(** The invariant looks at the session only. *)
Lemma traceInv_state (st st' : RouterState) (tr : Trace) :
  streamSession st' = streamSession st ->
  traceInv throws st tr -> traceInv throws st' tr.
Proof. unfold traceInv. intros ->. auto. Qed.

(** A call that is no call on a streamer. *)
Lemma traceInv_other (st : RouterState) (tr : Trace) (c : TransportCall) :
  (forall id, usesStreamer id c = false) ->
  traceInv throws st tr -> traceInv throws st (tr ++ [c]).
Proof.
  intros U (A & B & C & D). split; [|split; [|split]].
  - apply noUseAfterStop_snoc; [exact A|]. intros id H. rewrite U in H. discriminate H.
  - apply usesOpened_snoc; [exact B|]. intros id H. rewrite U in H. discriminate H.
  - eapply acceptedAreStopped_snoc; [exact C | auto |].
    intros id t -> _. specialize (U id). cbn in U. rewrite Nat.eqb_refl in U.
    discriminate U.
  - apply heldIsOpen_snoc; [exact D|]. intros s _.
    specialize (U (streamer s)). destruct c; try reflexivity. exact U.
Qed.

(** An append on the session held. *)
Lemma traceInv_append (st : RouterState) (tr : Trace) (s : SlackStreamSession)
    (t : jsstring) :
  streamSession st = Some s ->
  traceInv throws st tr ->
  traceInv throws st (tr ++ [StreamerAppend (streamer s) t]).
Proof.
  intros S (A & B & C & D). unfold traceInv. rewrite S in *.
  destruct D as (L & N & O). split; [|split; [|split]].
  - apply noUseAfterStop_snoc; [exact A|]. intros id H. cbn in H.
    apply Nat.eqb_eq in H. subst id. exact N.
  - apply usesOpened_snoc; [exact B|]. intros id H. cbn in H.
    apply Nat.eqb_eq in H. subst id. exact O.
  - eapply acceptedAreStopped_snoc; [exact C | auto |].
    intros id t' E _. injection E as <- _. reflexivity.
  - apply heldIsOpen_snoc; [cbn; auto|]. intros s' _. reflexivity.
Qed.

(** The stop of the session held, after which none is held. *)
Lemma traceInv_stop (st st' : RouterState) (tr : Trace) (s : SlackStreamSession)
    (x : option jsstring) :
  streamSession st = Some s ->
  streamSession st' = None ->
  traceInv throws st tr ->
  traceInv throws st' (tr ++ [StreamerStop (streamer s) x]).
Proof.
  intros S S' (A & B & C & D). unfold traceInv. rewrite S in *. rewrite S'.
  destruct D as (L & N & O). split; [|split; [|split]].
  - apply noUseAfterStop_snoc; [exact A|]. intros id H. cbn in H.
    apply Nat.eqb_eq in H. subst id. exact N.
  - apply usesOpened_snoc; [exact B|]. intros id H. cbn in H.
    apply Nat.eqb_eq in H. subst id. exact O.
  - eapply acceptedAreStopped_snoc; [exact C | |].
    + intros id E. injection E as <-. right. cbn. apply Nat.eqb_refl.
    + intros id t E. discriminate E.
  - exact I.
Qed.

(** The seed append of a stream just opened, and the session recorded
    for it when the append is accepted. *)
Lemma traceInv_seed (st st' : RouterState) (tr : Trace) (ch ts t : jsstring)
    (bs : option N) (held' : option SlackStreamSession) :
  streamSession st = None ->
  streamSession st' = held' ->
  (held' = None
   \/ held' = Some {| streamer := List.length tr; channel := ch;
                      threadTs := ts; stopped := false |}) ->
  (throws (tr ++ [ChatStream ch ts bs]) (StreamerAppend (List.length tr) t) = false ->
   held' <> None) ->
  traceInv throws st tr ->
  traceInv throws st'
    ((tr ++ [ChatStream ch ts bs]) ++ [StreamerAppend (List.length tr) t]).
Proof.
  intros S S' H' K I0.
  assert (I1 : traceInv throws st (tr ++ [ChatStream ch ts bs])).
  { apply traceInv_other; [reflexivity | exact I0]. }
  destruct I1 as (A & B & C & D). unfold traceInv. rewrite S in *. rewrite S'.
  assert (FR : usedIn (List.length tr) (tr ++ [ChatStream ch ts bs]) = false).
  { rewrite usedIn_snoc. cbn. rewrite orb_false_r.
    apply usesOpened_fresh; [apply I0 | lia]. }
  assert (O : exists ch' ts' bs',
             nth_error (tr ++ [ChatStream ch ts bs]) (List.length tr)
             = Some (ChatStream ch' ts' bs')).
  { exists ch, ts, bs. rewrite nth_error_app2 by lia.
    rewrite Nat.sub_diag. reflexivity. }
  split; [|split; [|split]].
  - apply noUseAfterStop_snoc; [exact A|]. intros id H. cbn in H.
    apply Nat.eqb_eq in H. subst id. apply stoppedIn_usedIn, FR.
  - apply usesOpened_snoc; [exact B|]. intros id H. cbn in H.
    apply Nat.eqb_eq in H. subst id. exact O.
  - eapply acceptedAreStopped_snoc; [exact C | discriminate |].
    intros id t' E OK. injection E as <- <-.
    destruct H' as [->| ->]; [destruct (K OK eq_refl) | reflexivity].
  - destruct H' as [->| ->]; [exact I|]. cbn.
    split; [reflexivity|]. split.
    + rewrite stoppedIn_snoc. cbn. rewrite orb_false_r. apply stoppedIn_usedIn, FR.
    + apply nth_error_ChatStream_app, O.
Qed.

(** A stream opened without seed, and the session recorded for it. *)
Lemma traceInv_open (st st' : RouterState) (tr : Trace) (ch ts : jsstring)
    (bs : option N) :
  streamSession st = None ->
  streamSession st' = Some {| streamer := List.length tr; channel := ch;
                              threadTs := ts; stopped := false |} ->
  traceInv throws st tr ->
  traceInv throws st' (tr ++ [ChatStream ch ts bs]).
Proof.
  intros S S' I0.
  assert (I1 : traceInv throws st (tr ++ [ChatStream ch ts bs])).
  { apply traceInv_other; [reflexivity | exact I0]. }
  destruct I1 as (A & B & C & D). unfold traceInv. rewrite S in *. rewrite S'.
  split; [exact A|]. split; [exact B|]. split.
  - intros a b id t E OK. destruct (C a b id t E OK) as [X|X]; [left; exact X|].
    discriminate X.
  - cbn. split; [reflexivity|]. split.
    + apply stoppedIn_usedIn. rewrite usedIn_snoc. cbn. rewrite orb_false_r.
      apply usesOpened_fresh; [apply I0 | lia].
    + exists ch, ts, bs. rewrite nth_error_app2 by lia.
      rewrite Nat.sub_diag. reflexivity.
Qed.

End TraceInvariant.

Section RouterTrace.

Variable throws : Trace -> TransportCall -> bool.
Variable isSilentReplyText : jsstring -> bool.
Variable d : DispatchInput.

Local Abbreviation TI := (traceInv throws).

Lemma hoareT_stopStreamIfActive :
  hoareT TI (stopStreamIfActive throws)
    (fun _ st tr => TI st tr /\ streamSession st = None)
    (fun _ _ => False).
Proof.
  intros st tr H. rewrite stopStreamIfActive_run. unfold afterStop, stopCalls.
  destruct (streamSession st) as [s|] eqn:S.
  - assert (L : stopped s = false).
    { destruct H as (_ & _ & _ & D). rewrite S in D. apply D. }
    rewrite L. split; [|reflexivity].
    eapply traceInv_stop; [exact S | reflexivity | exact H].
  - rewrite app_nil_r. split; [exact H | exact S].
Qed.

Lemma hoareT_deliverNormal (payload : ReplyPayload) (ts : option jsstring) :
  hoareT TI (deliverNormal throws payload ts) (fun _ => TI) TI.
Proof.
  intros st tr H. rewrite deliverNormal_run.
  assert (I : TI st (tr ++ [DeliverReplies payload ts])).
  { apply traceInv_other; [reflexivity | exact H]. }
  destruct (throws tr (DeliverReplies payload ts)); [exact I|].
  eapply traceInv_state; [|exact I]. reflexivity.
Qed.

Lemma hoareT_discrete (payload : ReplyPayload) (ts : option jsstring) :
  hoareT TI (stopStreamIfActive throws ;;; deliverNormal throws payload ts)
    (fun _ => TI) TI.
Proof.
  eapply hoareT_bind with (R := fun _ => TI).
  - eapply hoareT_weaken; [apply hoareT_stopStreamIfActive | auto | | ].
    + intros _ st tr [H _]. exact H.
    + intros st tr [].
  - intros _. apply hoareT_deliverNormal.
Qed.

Lemma hoareT_open (ets t : jsstring) :
  hoareT TI
    (stopStreamIfActive throws ;;;
     session <- startSlackStream throws (messageChannel d) ets (Some t) None ;;
     modify (setStreamSession (Some session)) ;;;
     modify (setStreamedText t))
    (fun _ => TI) TI.
Proof.
  eapply hoareT_bind
    with (R := fun _ st tr => TI st tr /\ streamSession st = None).
  { eapply hoareT_weaken; [apply hoareT_stopStreamIfActive | auto | auto | ].
    intros st tr []. }
  intros _ st tr [H S]. unfold bind at 1. rewrite startSlackStream_run. cbv zeta.
  set (open := ChatStream (messageChannel d) ets None).
  destruct (throws tr open).
  { apply traceInv_other; [reflexivity | exact H]. }
  destruct (finalTextOf (Some t)) as [seedText|].
  - destruct (throws (tr ++ [open]) (StreamerAppend (List.length tr) seedText)) eqn:A.
    + eapply traceInv_seed with (st := st); [exact S | exact S | left; reflexivity | | exact H].
      intros C. unfold open in A. rewrite A in C. discriminate C.
    + cbn. eapply traceInv_seed with (st := st);
        [exact S | reflexivity | right; reflexivity | discriminate | exact H].
  - cbn. eapply traceInv_open with (st := st); [exact S | reflexivity | exact H].
Qed.

Lemma hoareT_more (t : jsstring) :
  hoareT (fun st tr => TI st tr /\ isSome (streamSession st) = true)
    (delta <- resolveStreamDelta t ;;
     if truthy delta
     then onStreamSession (appendSlackStream throws delta)
     else ret tt)
    (fun _ => TI) TI.
Proof.
  intros st tr [H S]. unfold bind. rewrite resolveStreamDelta_run.
  set (r := resolveDelta (streamedText st) t).
  assert (I : TI (setStreamedText (snd r) st) tr).
  { eapply traceInv_state; [|exact H]. reflexivity. }
  destruct (truthy (fst r)) eqn:TD; [|exact I].
  unfold onStreamSession, bind, get, zoom. cbn [streamSession setStreamedText].
  destruct (streamSession st) as [s|] eqn:E; [|discriminate S].
  assert (L : stopped s = false).
  { destruct H as (_ & _ & _ & D). rewrite E in D. apply D. }
  rewrite appendSlackStream_live by assumption.
  assert (I' : TI (setStreamSession (Some s) (setStreamedText (snd r) st))
                 (tr ++ [StreamerAppend (streamer s) (fst r)])).
  { eapply traceInv_state with (st := st); [cbn; symmetry; exact E|].
    apply traceInv_append; [exact E | exact H]. }
  destruct (throws tr (StreamerAppend (streamer s) (fst r))); exact I'.
Qed.

Lemma hoareT_deliver (payload : ReplyPayload) (kind : ReplyDispatchKind) :
  hoareT TI (deliverWithOptionalStreaming throws isSilentReplyText d payload kind)
    (fun _ => TI) TI.
Proof.
  intros st tr H. unfold deliverWithOptionalStreaming.
  unfold bind at 1. unfold get at 1.
  destruct (canStreamText isSilentReplyText d st payload kind); cbn [negb];
    [|exact (@hoareT_discrete payload _ st tr H)].
  destruct (effectiveThreadTsOf (nextThreadTs (replyPlan st))) as [ets|];
    [|exact (@hoareT_discrete payload _ st tr H)].
  refine (@hoareT_tryCatch RouterState unit TI _ _ (fun _ => TI) TI TI _ _ st tr H).
  - clear st tr H.
    eapply hoareT_bind with (R := fun a st tr => TI st tr /\ a = st).
    { apply hoareT_get. auto. }
    intros st0.
    eapply hoareT_bind with (R := fun _ => TI).
    + destruct (needsNewSession st0 ets) eqn:NS.
      * eapply hoareT_weaken; [apply hoareT_open | | auto | auto].
        intros st tr [H _]. exact H.
      * eapply hoareT_weaken; [apply hoareT_more | | auto | auto].
        intros st tr [H <-]. split; [exact H|].
        unfold needsNewSession in NS.
        destruct (streamSession st0); [reflexivity | discriminate NS].
    + intros _. apply hoareT_modify. intros st tr H.
      eapply traceInv_state; [|exact H]. reflexivity.
  - eapply hoareT_bind with (R := fun _ => TI).
    + apply hoareT_modify. intros st' tr' H'.
      eapply traceInv_state; [|exact H']. reflexivity.
    + intros _. apply hoareT_discrete.
Qed.

Lemma hoareT_deliverEvents (events : list (ReplyPayload * ReplyDispatchKind)) :
  hoareT TI (deliverEvents throws isSilentReplyText d events)
    (fun _ => TI) (fun _ _ => False).
Proof.
  induction events as [|[payload kind] rest IH].
  - apply hoareT_ret. auto.
  - cbn [deliverEvents].
    eapply hoareT_bind with (R := fun _ => TI); [|intros _; exact IH].
    eapply hoareT_tryCatch with (R := TI).
    + apply hoareT_deliver.
    + apply hoareT_ret. auto.
Qed.

Lemma runResponse_traceInv (events : list (ReplyPayload * ReplyDispatchKind))
    (generatorThrows : bool) :
  exists r st' tr',
    runResponse throws isSilentReplyText d events generatorThrows = (r, st', tr')
    /\ TI st' tr' /\ streamSession st' = None.
Proof.
  pose proof (@hoareT_deliverEvents events (initialState d) []
                (traceInv_initial throws d)) as H.
  destruct (deliverEvents throws isSilentReplyText d events (initialState d) [])
    as [[[[]|] st1] tr1] eqn:E; [|destruct H].
  destruct (dispatchResult_run throws isSilentReplyText d events generatorThrows
              _ _ E) as [_ Y].
  pose proof (@hoareT_stopStreamIfActive st1 tr1 H) as K.
  rewrite stopStreamIfActive_run in K.
  eexists. eexists. eexists. split; [exact Y | exact K].
Qed.

(** X11.  Over a whole response, whatever the transport does, the router
    never calls a streamer after it has called its stop, and every append
    or stop is made on the handle that an earlier [chatStream] call of
    the response returned. *)
Theorem X11_no_use_after_stop (events : list (ReplyPayload * ReplyDispatchKind))
    (generatorThrows : bool) :
  let tr := snd (runResponse throws isSilentReplyText d events generatorThrows) in
  (forall a b id x, tr = a ++ StreamerStop id x :: b -> usedIn id b = false)
  /\ (forall a b c id,
        tr = a ++ c :: b -> usesStreamer id c = true ->
        exists ch ts bs, nth_error a id = Some (ChatStream ch ts bs)).
Proof.
  destruct (runResponse_traceInv events generatorThrows)
    as (r & st' & tr' & E & (A & B & _) & _).
  rewrite E. cbn. split; [exact A | exact B].
Qed.

(** X12.  No stream that accepted text is left open: by the end of the
    response, every streamer on which an append call succeeded has been
    given a stop call later in the trace. *)
Theorem X12_accepted_streams_are_stopped
    (events : list (ReplyPayload * ReplyDispatchKind)) (generatorThrows : bool) :
  let tr := snd (runResponse throws isSilentReplyText d events generatorThrows) in
  forall a b id t,
    tr = a ++ StreamerAppend id t :: b ->
    throws a (StreamerAppend id t) = false ->
    stoppedIn id b = true.
Proof.
  destruct (runResponse_traceInv events generatorThrows)
    as (r & st' & tr' & E & (_ & _ & C & _) & S).
  rewrite E. cbn. intros a b id t Ea OK. rewrite S in C.
  destruct (C a b id t Ea OK) as [X|X]; [exact X | discriminate X].
Qed.

End RouterTrace.

(* ===================================================================== *)
(** ** Discrete sends and what a delivery throws *)
(* ===================================================================== *)

Lemma sendsIn_snoc (tr : Trace) (c : TransportCall) :
  sendsIn (tr ++ [c]) = sendsIn tr + (if isDiscreteSend c then 1 else 0).
Proof.
  unfold sendsIn. rewrite filter_app, length_app. cbn.
  destruct (isDiscreteSend c); reflexivity.
Qed.

Section RouterSends.

Variable throws : Trace -> TransportCall -> bool.
Variable isSilentReplyText : jsstring -> bool.
Variable d : DispatchInput.

(** The trace ends with the discrete send of the payload, which threw. *)
Local Abbreviation sendThrew payload tr :=
  (exists tr1 ts,
     tr = tr1 ++ [DeliverReplies payload ts]
     /\ throws tr1 (DeliverReplies payload ts) = true).

Lemma hoareT_sends_stop (n : nat) :
  hoareT (fun _ tr => sendsIn tr = n) (stopStreamIfActive throws)
    (fun _ _ tr => sendsIn tr = n) (fun _ _ => False).
Proof.
  intros st tr H. rewrite stopStreamIfActive_run. unfold stopCalls.
  destruct (streamSession st) as [s|]; [|rewrite app_nil_r; exact H].
  destruct (stopped s); [rewrite app_nil_r; exact H|].
  rewrite sendsIn_snoc. cbn. lia.
Qed.

Lemma hoareT_sends_deliverNormal (n : nat) (payload : ReplyPayload)
    (ts : option jsstring) :
  hoareT (fun _ tr => sendsIn tr = n) (deliverNormal throws payload ts)
    (fun _ _ tr => sendsIn tr = n + 1)
    (fun _ tr => sendsIn tr = n + 1 /\ sendThrew payload tr).
Proof.
  intros st tr H. rewrite deliverNormal_run.
  destruct (throws tr (DeliverReplies payload ts)) eqn:F;
    rewrite sendsIn_snoc; cbn; [|lia].
  split; [lia|]. exists tr, ts. auto.
Qed.

Lemma hoareT_sends_discrete (n : nat) (payload : ReplyPayload)
    (ts : option jsstring) :
  hoareT (fun _ tr => sendsIn tr = n)
    (stopStreamIfActive throws ;;; deliverNormal throws payload ts)
    (fun _ _ tr => sendsIn tr = n + 1)
    (fun _ tr => sendsIn tr = n + 1 /\ sendThrew payload tr).
Proof.
  eapply hoareT_bind with (R := fun _ _ tr => sendsIn tr = n).
  - eapply hoareT_weaken; [apply (@hoareT_sends_stop n) | auto | auto | ].
    intros st tr [].
  - intros _. apply hoareT_sends_deliverNormal.
Qed.

Lemma hoareT_sends_body (n : nat) (ets t : jsstring) :
  hoareT (fun _ tr => sendsIn tr = n)
    (st <- get ;;
     (if needsNewSession st ets then
        stopStreamIfActive throws ;;;
        session <- startSlackStream throws (messageChannel d) ets (Some t) None ;;
        modify (setStreamSession (Some session)) ;;;
        modify (setStreamedText t)
      else
        delta <- resolveStreamDelta t ;;
        if truthy delta
        then onStreamSession (appendSlackStream throws delta)
        else ret tt) ;;;
     modify (fun st => setReplyPlan (markSent (replyPlan st)) st))
    (fun _ _ tr => sendsIn tr = n) (fun _ tr => sendsIn tr = n).
Proof.
  eapply hoareT_bind with (R := fun _ _ tr => sendsIn tr = n).
  { apply hoareT_get. auto. }
  intros st0.
  eapply hoareT_bind with (R := fun _ _ tr => sendsIn tr = n).
  2:{ intros _. apply hoareT_modify. auto. }
  destruct (needsNewSession st0 ets).
  - eapply hoareT_bind with (R := fun _ _ tr => sendsIn tr = n).
    { eapply hoareT_weaken; [apply (@hoareT_sends_stop n) | auto | auto | ].
      intros st tr []. }
    intros _ st tr H. unfold bind at 1. rewrite startSlackStream_run. cbv zeta.
    destruct (throws tr (ChatStream (messageChannel d) ets None)).
    { rewrite sendsIn_snoc. cbn. lia. }
    destruct (finalTextOf (Some t)) as [seedText|].
    + destruct (throws (tr ++ [ChatStream (messageChannel d) ets None])
                  (StreamerAppend (List.length tr) seedText));
        cbn; rewrite !sendsIn_snoc; cbn; lia.
    + cbn. rewrite sendsIn_snoc. cbn. lia.
  - intros st tr H. unfold bind. rewrite resolveStreamDelta_run.
    destruct (truthy (fst (resolveDelta (streamedText st) t))); [|exact H].
    unfold onStreamSession, bind, get, zoom, throw.
    cbn [streamSession setStreamedText].
    destruct (streamSession st) as [s|]; [|exact H].
    unfold appendSlackStream, bind, get, ret, transport.
    destruct (negb (truthy (fst (resolveDelta (streamedText st) t))) || stopped s);
      [exact H|].
    destruct (throws tr _); rewrite sendsIn_snoc; cbn; lia.
Qed.

Lemma hoareT_sends_deliver (n : nat) (payload : ReplyPayload)
    (kind : ReplyDispatchKind) :
  hoareT (fun _ tr => sendsIn tr = n)
    (deliverWithOptionalStreaming throws isSilentReplyText d payload kind)
    (fun _ _ tr' => n <= sendsIn tr' <= n + 1)
    (fun _ tr' => sendsIn tr' = n + 1 /\ sendThrew payload tr').
Proof.
  intros st tr H. unfold deliverWithOptionalStreaming.
  unfold bind at 1. unfold get at 1.
  assert (D : forall ts,
    hoareT (fun _ tr => sendsIn tr = n)
      (stopStreamIfActive throws ;;; deliverNormal throws payload ts)
      (fun _ _ tr' => n <= sendsIn tr' <= n + 1)
      (fun _ tr' => sendsIn tr' = n + 1 /\ sendThrew payload tr')).
  { intros ts. eapply hoareT_weaken;
      [apply (@hoareT_sends_discrete n payload ts) | auto | | auto].
    cbv beta. intros _ _ tr' E. lia. }
  destruct (canStreamText isSilentReplyText d st payload kind); cbn [negb];
    [|exact (D _ st tr H)].
  destruct (effectiveThreadTsOf (nextThreadTs (replyPlan st))) as [ets|];
    [|exact (D _ st tr H)].
  refine (@hoareT_tryCatch RouterState unit (fun _ tr => sendsIn tr = n) _ _
            (fun _ _ tr' => n <= sendsIn tr' <= n + 1)
            (fun _ tr => sendsIn tr = n)
            (fun _ tr' => sendsIn tr' = n + 1 /\ sendThrew payload tr')
            _ _ st tr H).
  - eapply hoareT_weaken; [apply (@hoareT_sends_body n) | auto | | auto].
    cbv beta. intros _ _ tr' E. lia.
  - eapply hoareT_bind with (R := fun _ _ tr => sendsIn tr = n).
    + apply hoareT_modify. auto.
    + intros _. apply D.
Qed.

(** X13.  A reply event makes at most one discrete send.  The only error
    that escapes [deliverWithOptionalStreaming] is the failure of that
    send: whenever the delivery throws, the last call of the trace is the
    discrete send of this payload, and it threw.  A failure of the
    transport of the stream alone never propagates. *)
Theorem X13_only_the_send_can_throw (payload : ReplyPayload)
    (kind : ReplyDispatchKind) (st : RouterState) (tr : Trace) :
  match deliverWithOptionalStreaming throws isSilentReplyText d payload kind st tr with
  | (Normal _, _, tr') => sendsIn tr <= sendsIn tr' <= sendsIn tr + 1
  | (Throw, _, tr') =>
      sendsIn tr' = sendsIn tr + 1
      /\ exists tr1 ts,
           tr' = tr1 ++ [DeliverReplies payload ts]
           /\ throws tr1 (DeliverReplies payload ts) = true
  end.
Proof. exact (@hoareT_sends_deliver (sendsIn tr) payload kind st tr eq_refl). Qed.

End RouterSends.

(* ===================================================================== *)
(** ** The typing indicator *)
(* ===================================================================== *)

Lemma typingShown_snoc (tr : list StatusCall) (c : StatusCall) :
  typingShown (tr ++ [c]) = truthy (statusOf c).
Proof. unfold typingShown. rewrite rev_app_distr. reflexivity. Qed.

Lemma clearsFollowTyping_snoc (tr : list StatusCall) (c : StatusCall) :
  clearsFollowTyping tr ->
  (statusOf c = [] -> typingShown tr = true) ->
  clearsFollowTyping (tr ++ [c]).
Proof.
  intros H F a c' b E Z. symmetry in E.
  apply snoc_split in E as [(-> & -> & ->)|(b' & -> & ->)].
  - apply F, Z.
  - apply (H a c' b' eq_refl Z).
Qed.

Section TypingFacts.

Variable statusThrows : list StatusCall -> StatusCall -> bool.
Variable channelId : jsstring.
Variable statusThreadTs : option jsstring.

Lemma runTyping_invariant (ops : list bool) :
  forall (flag : bool) (tr : list StatusCall),
    flag = typingShown tr ->
    clearsFollowTyping tr ->
    fst (runTyping statusThrows channelId statusThreadTs ops flag tr)
    = typingShown (snd (runTyping statusThrows channelId statusThreadTs ops flag tr))
    /\ clearsFollowTyping
         (snd (runTyping statusThrows channelId statusThreadTs ops flag tr)).
Proof.
  induction ops as [|op rest IH]; intros flag tr F C; [split; assumption|].
  cbn [runTyping]. destruct op.
  - unfold typingStart. cbv zeta. cbv iota. apply IH.
    + rewrite typingShown_snoc. reflexivity.
    + apply clearsFollowTyping_snoc; [exact C | discriminate].
  - unfold typingStop. destruct flag; cbn [negb]; cbv zeta; cbv iota.
    + apply IH.
      * rewrite typingShown_snoc. reflexivity.
      * apply clearsFollowTyping_snoc; [exact C | intros _; symmetry; exact F].
    + apply IH; assumption.
Qed.

(** X14.  Over any sequence of [start] and [stop] callbacks, whatever
    the status calls throw, [didSetStatus] tells whether the last status
    call asked for the typing status; so [stop] clears the status only
    when it is shown: a clearing call always directly follows a typing
    call, and [stop] without a [start] before it calls nothing. *)
Theorem X14_typing_flag_tracks_status (ops : list bool) :
  let run := runTyping statusThrows channelId statusThreadTs ops false [] in
  fst run = typingShown (snd run)
  /\ (forall a c b, snd run = a ++ c :: b -> statusOf c = [] -> typingShown a = true)
  /\ forall tr, typingStop statusThrows channelId statusThreadTs false tr
               = (Normal tt, false, tr).
Proof.
  cbv zeta.
  destruct (@runTyping_invariant ops false []) as [A B].
  - reflexivity.
  - intros a c b E. destruct a; discriminate E.
  - split; [exact A|]. split; [exact B|]. reflexivity.
Qed.

End TypingFacts.

(* ===================================================================== *)
(** ** [extractFirstJsonObject] *)
(* ===================================================================== *)

Lemma lacks_cons (c x : code_unit) (s : jsstring) :
  lacks c (x :: s) = negb (N.eqb c x) && lacks c s.
Proof. unfold lacks. cbn. apply negb_orb. Qed.

Lemma lacks_app (c : code_unit) (a b : jsstring) :
  lacks c (a ++ b) = lacks c a && lacks c b.
Proof. unfold lacks. rewrite existsb_app. apply negb_orb. Qed.

Lemma indexOf_found (c : code_unit) (pre post : jsstring) :
  lacks c pre = true -> indexOf (pre ++ c :: post) c = Some (List.length pre).
Proof.
  induction pre as [|x pre IH]; intros H; cbn.
  - rewrite N.eqb_refl. reflexivity.
  - rewrite lacks_cons in H. apply andb_true_iff in H as [H1 H2].
    apply negb_true_iff in H1. rewrite N.eqb_sym, H1, (IH H2). reflexivity.
Qed.

Lemma indexOf_Some (c : code_unit) (s : jsstring) (i : nat) :
  indexOf s c = Some i ->
  exists pre post, s = pre ++ c :: post /\ List.length pre = i /\ lacks c pre = true.
Proof.
  revert i. induction s as [|x s IH]; intros i H; [discriminate H|].
  cbn in H. destruct (N.eqb x c) eqn:E.
  - apply N.eqb_eq in E. subst x. injection H as <-.
    exists [], s. auto.
  - destruct (indexOf s c) as [j|]; [|discriminate H]. injection H as <-.
    destruct (IH j eq_refl) as (pre & post & -> & L & K).
    exists (x :: pre), post. split; [reflexivity|]. split; [cbn; congruence|].
    rewrite lacks_cons, N.eqb_sym, E, K. reflexivity.
Qed.

Lemma indexOf_None (c : code_unit) (s : jsstring) :
  lacks c s = true -> indexOf s c = None.
Proof.
  induction s as [|x s IH]; intros H; [reflexivity|].
  rewrite lacks_cons in H. apply andb_true_iff in H as [H1 H2].
  apply negb_true_iff in H1. cbn. rewrite N.eqb_sym, H1, (IH H2). reflexivity.
Qed.

Lemma skipn_length_app (A : Type) (a b : list A) : skipn (List.length a) (a ++ b) = b.
Proof. induction a; cbn; auto. Qed.

(** The loop returns, if at all, at a closing brace. *)
Lemma scanObject_bound (rest : jsstring) :
  forall (taken : nat) (depth : Z) (inString escaped : bool) (len : nat),
    scanObject rest taken depth inString escaped = Some len ->
    taken < len
    /\ len <= taken + List.length rest
    /\ nth_error rest (len - S taken) = Some RBRACE.
Proof.
  induction rest as [|ch rest IH]; intros taken depth inString escaped len H;
    [discriminate H|].
  assert (K : forall depth' i e,
             scanObject rest (S taken) depth' i e = Some len ->
             taken < len /\ len <= taken + List.length (ch :: rest)
             /\ nth_error (ch :: rest) (len - S taken) = Some RBRACE).
  { intros depth' i e R. destruct (IH _ _ _ _ _ R) as (A & B & C).
    cbn [List.length]. split; [lia|]. split; [lia|].
    replace (len - S taken) with (S (len - S (S taken))) by lia. exact C. }
  cbn [scanObject] in H. destruct inString.
  - destruct escaped; [exact (K _ _ _ H)|].
    destruct (strictEquals [ch] [BACKSLASH; BACKSLASH]); [exact (K _ _ _ H)|].
    destruct (N.eqb ch QUOTE); exact (K _ _ _ H).
  - destruct (N.eqb ch QUOTE); [exact (K _ _ _ H)|].
    destruct (N.eqb ch LBRACE); [exact (K _ _ _ H)|].
    destruct (N.eqb ch RBRACE) eqn:R; [|exact (K _ _ _ H)].
    destruct (Z.eqb (depth - 1) 0); [|exact (K _ _ _ H)].
    injection H as <-. apply N.eqb_eq in R. subst ch.
    cbn [List.length]. split; [lia|]. split; [lia|].
    rewrite Nat.sub_diag. reflexivity.
Qed.

(** X15.  [extractFirstJsonObject] returns null when the text has no
    opening brace; what it returns otherwise is a slice of the text that
    begins at its first opening brace and ends at a closing brace. *)
Theorem X15_extract_returns_a_braced_slice (raw : jsstring) :
  (lacks LBRACE raw = true -> extractFirstJsonObject raw = None)
  /\ forall s,
       extractFirstJsonObject raw = Some s ->
       exists pre post,
         raw = pre ++ s ++ post
         /\ lacks LBRACE pre = true
         /\ hd_error s = Some LBRACE
         /\ nth_error s (List.length s - 1) = Some RBRACE
         /\ 2 <= List.length s.
Proof.
  split.
  - intros H. unfold extractFirstJsonObject. rewrite (indexOf_None _ _ H). reflexivity.
  - intros s H. unfold extractFirstJsonObject in H.
    destruct (indexOf raw LBRACE) as [start|] eqn:I; [|discriminate H].
    apply indexOf_Some in I as (pre & post & -> & <- & L).
    rewrite skipn_length_app in H.
    destruct (scanObject (LBRACE :: post) 0 0 false false) as [len|] eqn:Sc;
      [|discriminate H].
    injection H as <-.
    destruct (scanObject_bound _ _ _ _ _ Sc) as (A & B & C).
    rewrite Nat.add_0_l in B.
    exists pre, (skipn len (LBRACE :: post)).
    rewrite firstn_skipn. split; [reflexivity|]. split; [exact L|].
    rewrite length_firstn, (Nat.min_l _ _ B).
    assert (T : 2 <= len).
    { destruct len as [|[|len]]; [lia | discriminate C | lia]. }
    split; [destruct len; [lia | reflexivity]|]. split; [|exact T].
    rewrite nth_error_firstn.
    destruct (Nat.ltb_spec (len - 1) len) as [_|X]; [exact C | lia].
Qed.

Lemma X15_extract_returns_a_braced_slice_witness :
  extractFirstJsonObject (lit "no object here") = None
  /\ exists pre post,
       lit "log {a} tail" = pre ++ lit "{a}" ++ post
       /\ lacks LBRACE pre = true
       /\ hd_error (lit "{a}") = Some LBRACE
       /\ nth_error (lit "{a}") (List.length (lit "{a}") - 1) = Some RBRACE
       /\ 2 <= List.length (lit "{a}").
Proof.
  split.
  - apply (proj1 (X15_extract_returns_a_braced_slice (lit "no object here"))).
    reflexivity.
  - apply (proj2 (X15_extract_returns_a_braced_slice (lit "log {a} tail"))).
    reflexivity.
Defined.

Lemma firstn_length_app (A : Type) (a b : list A) : firstn (List.length a) (a ++ b) = a.
Proof. induction a; cbn; [reflexivity | f_equal; assumption]. Qed.

Lemma lacks_head (c x : code_unit) (s : jsstring) :
  lacks c (x :: s) = true -> N.eqb x c = false /\ lacks c s = true.
Proof.
  rewrite lacks_cons. intros H. apply andb_true_iff in H as [H1 H2].
  apply negb_true_iff in H1. rewrite N.eqb_sym. auto.
Qed.

(** Outside string literals, a run without quote and without brace is
    skipped. *)
Lemma scanObject_plain (plain rest : jsstring) :
  isPlain plain = true ->
  forall (taken : nat) (depth : Z) (escaped : bool),
    scanObject (plain ++ rest) taken depth false escaped
    = scanObject rest (taken + List.length plain) depth false escaped.
Proof.
  unfold isPlain. induction plain as [|ch plain IH]; intros H taken depth escaped.
  - cbn. rewrite Nat.add_0_r. reflexivity.
  - apply andb_true_iff in H as [H HR]. apply andb_true_iff in H as [HQ HL].
    apply lacks_head in HQ as [Q1 Q2]. apply lacks_head in HL as [L1 L2].
    apply lacks_head in HR as [R1 R2].
    cbn [app scanObject]. rewrite Q1, L1, R1.
    rewrite IH by (rewrite Q2, L2, R2; reflexivity).
    cbn [List.length]. f_equal. lia.
Qed.

(** Inside a string literal every code unit but the quote is skipped,
    the backslash included: one code unit never equals the literal of two
    backslashes, so [escaped] is never set. *)
Lemma scanObject_string (str rest : jsstring) :
  lacks QUOTE str = true ->
  forall (taken : nat) (depth : Z),
    scanObject (str ++ rest) taken depth true false
    = scanObject rest (taken + List.length str) depth true false.
Proof.
  induction str as [|ch str IH]; intros H taken depth.
  - cbn. rewrite Nat.add_0_r. reflexivity.
  - apply lacks_head in H as [Q1 Q2].
    cbn [app scanObject strictEquals]. rewrite andb_false_r, Q1.
    rewrite IH by exact Q2. cbn [List.length]. f_equal. lia.
Qed.

Lemma scanObject_flat (segments : list (jsstring * jsstring)) (post : jsstring) :
  flatSegments segments = true ->
  forall taken : nat,
    scanObject (flatObject segments ++ RBRACE :: post) taken 1 false false
    = Some (S (taken + List.length (flatObject segments))).
Proof.
  induction segments as [|[str plain] segments IH]; intros H taken.
  - cbn. rewrite Nat.add_0_r. reflexivity.
  - cbn [flatSegments] in H. apply andb_true_iff in H as [H H3].
    apply andb_true_iff in H as [H1 H2].
    cbn [flatObject app]. cbn [scanObject]. cbn [N.eqb QUOTE Pos.eqb].
    rewrite <- app_assoc. rewrite scanObject_string by exact H1.
    cbn [app scanObject strictEquals]. rewrite andb_false_r. cbn [N.eqb QUOTE Pos.eqb].
    rewrite <- app_assoc. rewrite scanObject_plain by exact H2.
    rewrite IH by exact H3. f_equal. cbn [List.length].
    rewrite !length_app. cbn [List.length]. rewrite length_app. lia.
Qed.

(** X16.  For an object whose braces all lie inside string literals, and
    whose string literals hold no quote character, the function returns
    exactly the text from the first opening brace to the closing brace of
    the object: braces and backslashes inside the string literals do not
    count, and what precedes and follows the object is dropped. *)
Theorem X16_extract_flat_object (pre plain post : jsstring)
    (segments : list (jsstring * jsstring)) :
  lacks LBRACE pre = true ->
  isPlain plain = true ->
  flatSegments segments = true ->
  extractFirstJsonObject
    (pre ++ LBRACE :: plain ++ flatObject segments ++ RBRACE :: post)
  = Some (LBRACE :: plain ++ flatObject segments ++ [RBRACE]).
Proof.
  intros HP HL HS. unfold extractFirstJsonObject.
  rewrite (indexOf_found _ _ _ HP), skipn_length_app.
  cbn [scanObject]. cbn [N.eqb LBRACE QUOTE Pos.eqb].
  rewrite scanObject_plain by exact HL. rewrite scanObject_flat by exact HS.
  f_equal.
  replace (LBRACE :: plain ++ flatObject segments ++ RBRACE :: post)
    with ((LBRACE :: plain ++ flatObject segments ++ [RBRACE]) ++ post).
  - replace (S (1 + List.length plain + List.length (flatObject segments)))
      with (List.length (LBRACE :: plain ++ flatObject segments ++ [RBRACE])).
    + apply firstn_length_app.
    + cbn [List.length]. rewrite !length_app. cbn [List.length]. lia.
  - cbn [app]. rewrite <- !app_assoc. reflexivity.
Qed.

Lemma X16_extract_flat_object_witness :
  extractFirstJsonObject
    (lit "warn: " ++ LBRACE :: lit " " ++
     flatObject [(lit "a}\", lit ": 1 ")] ++ RBRACE :: lit " done")
  = Some (LBRACE :: lit " " ++ flatObject [(lit "a}\", lit ": 1 ")] ++ [RBRACE]).
Proof.
  apply (@X16_extract_flat_object (lit "warn: ") (lit " ") (lit " done")
           [(lit "a}\", lit ": 1 ")]).
  - reflexivity.
  - reflexivity.
  - reflexivity.
Defined.

(* ===================================================================== *)
(** ** The further properties of the router, on the scenarios *)
(* ===================================================================== *)

Lemma X4_router_invariant_witness :
  routerInv
    (snd (fst (deliverWithOptionalStreaming firstAppendThrows tokenOnly
                 (directMessage ModeAll (Some true))
                 (textPayload (lit "first block and more")) KindBlock
                 streamingState []))).
Proof.
  apply (@X4_router_invariant firstAppendThrows tokenOnly
           (directMessage ModeAll (Some true))
           (textPayload (lit "first block and more")) KindBlock streamingState []).
  reflexivity.
Defined.

Lemma X6_ineligible_payload_is_sent_discretely_witness :
  exists st',
    deliverWithOptionalStreaming neverThrows tokenOnly
      (directMessage ModeAll (Some true))
      (textPayload (lit "ran a tool")) KindTool streamingState []
    = (Normal tt, st',
       [StreamerStop 0 None;
        DeliverReplies (textPayload (lit "ran a tool")) (Some (lit "123"))])
    /\ streamSession st' = None.
Proof.
  destruct (@X6_ineligible_payload_is_sent_discretely neverThrows tokenOnly
              (directMessage ModeAll (Some true))
              (textPayload (lit "ran a tool")) KindTool streamingState []
              (or_introl eq_refl))
    as (st' & E & S & _).
  exists st'. split; [exact E | exact S].
Defined.

Lemma X7_no_call_without_new_text_witness :
  exists st',
    deliverWithOptionalStreaming neverThrows tokenOnly
      (directMessage ModeAll (Some true))
      (textPayload (lit "first block")) KindBlock streamingState []
    = (Normal tt, st', [])
    /\ streamSession st' = Some liveSession
    /\ streamedText st' = lit "first block"
    /\ hasReplied (replyPlan st') = true.
Proof.
  apply (@X7_no_call_without_new_text neverThrows tokenOnly
           (directMessage ModeAll (Some true))
           (textPayload (lit "first block")) KindBlock streamingState []
           (lit "123") liveSession).
  - reflexivity.
  - reflexivity.
  - reflexivity.
  - reflexivity.
  - reflexivity.
  - reflexivity.
Defined.

Lemma X8_later_append_failure_stops_the_stream_witness :
  exists r st',
    deliverWithOptionalStreaming firstAppendThrows tokenOnly
      (directMessage ModeAll (Some true))
      (textPayload (lit "first block and more")) KindBlock streamingState []
    = (r, st',
       [] ++ [StreamerAppend 0 (lit " and more");
              StreamerStop 0 None;
              DeliverReplies (textPayload (lit "first block and more"))
                (Some (lit "123"))])
    /\ streamSession st' = None
    /\ streamFailed st' = true
    /\ streamedText st' = [].
Proof.
  apply (@X8_later_append_failure_stops_the_stream firstAppendThrows tokenOnly
           (directMessage ModeAll (Some true))
           (textPayload (lit "first block and more")) KindBlock streamingState []
           (lit "123") liveSession).
  - reflexivity.
  - reflexivity.
  - reflexivity.
  - reflexivity.
  - reflexivity.
  - reflexivity.
  - reflexivity.
Defined.

Lemma X9_thread_change_stops_then_opens_witness :
  deliverWithOptionalStreaming stopThrowsAlways tokenOnly
    (directMessage ModeAll (Some true))
    (textPayload (lit "second block")) KindBlock strayState
    [ChatStream (lit "C1") (lit "999") None; StreamerAppend 0 (lit "first block")]
  = (Normal tt,
     {| replyPlan := markSent (replyPlan strayState);
        streamSession :=
          Some {| streamer := 3; channel := lit "C1"; threadTs := lit "123";
                  stopped := false |};
        streamFailed := true;
        streamedText := lit "second block" |},
     [ChatStream (lit "C1") (lit "999") None; StreamerAppend 0 (lit "first block")]
       ++ [StreamerStop 0 None;
           ChatStream (lit "C1") (lit "123") None;
           StreamerAppend 3 (lit "second block")]).
Proof.
  apply (@X9_thread_change_stops_then_opens stopThrowsAlways tokenOnly
           (directMessage ModeAll (Some true))
           (textPayload (lit "second block")) KindBlock strayState
           [ChatStream (lit "C1") (lit "999") None;
            StreamerAppend 0 (lit "first block")]
           (lit "123")
           {| streamer := 0; channel := lit "C1"; threadTs := lit "999";
              stopped := false |}).
  - reflexivity.
  - reflexivity.
  - discriminate.
  - reflexivity.
  - reflexivity.
  - reflexivity.
  - reflexivity.
Defined.

Lemma X10_streaming_off_is_discrete_witness :
  exists st',
    runResponse firstAppendThrows tokenOnly (directMessage ModeFirst (Some false))
      twoBlocks false
    = (Normal tt, st',
       [DeliverReplies (textPayload (lit "first block")) (Some (lit "123"));
        DeliverReplies (textPayload (lit "second block")) None])
    /\ streamFailed st' = false.
Proof.
  destruct (@X10_streaming_off_is_discrete firstAppendThrows tokenOnly
              (directMessage ModeFirst (Some false)) twoBlocks false eq_refl)
    as (st' & sends & E & DS & _ & F).
  exists st'. rewrite DS in E. split; [exact E | exact F].
Defined.

(* ===================================================================== *)
(** ** A response streamed from its first to its last event *)
(* ===================================================================== *)

Section OneStream.

Variable throws : Trace -> TransportCall -> bool.
Variable isSilentReplyText : jsstring -> bool.
Variable d : DispatchInput.
Variable T : jsstring.

Hypothesis transport_ok : forall tr c, throws tr c = false.
Hypothesis streaming_on : useStreaming d = true.
Hypothesis thread_ok : truthy (trim T) = true.

Lemma streamable_eligible (e : ReplyPayload * ReplyDispatchKind) (st : RouterState) :
  streamable isSilentReplyText e = true ->
  streamFailed st = false ->
  nextThreadTs (replyPlan st) = Some T ->
  canStreamText isSilentReplyText d st (fst e) (snd e) = true.
Proof.
  unfold streamable. rewrite !andb_true_iff, !negb_true_iff.
  intros [[[K M] TX] S] F N.
  apply eligible_intro with (T := T); assumption.
Qed.

(** The events that follow the opening of the stream. *)
Lemma deliverEvents_on_session (events : list (ReplyPayload * ReplyDispatchKind))
    (s : SlackStreamSession) :
  forallb (streamable isSilentReplyText) events = true ->
  stopped s = false ->
  threadTs s = trim T ->
  forall (st : RouterState) (tr : Trace),
    streamSession st = Some s ->
    streamFailed st = false ->
    replyToMode (replyPlan st) = ModeAll ->
    nextThreadTs (replyPlan st) = Some T ->
    let run := resolveAll (streamedText st) (List.map (fun e => textOf (fst e)) events) in
    exists st',
      deliverEvents throws isSilentReplyText d events st tr
      = (Normal tt, st',
         tr ++ List.map (StreamerAppend (streamer s)) (List.filter truthy (fst run)))
      /\ streamSession st' = Some s
      /\ streamFailed st' = false
      /\ streamedText st' = snd run.
Proof.
  intros A L TS. induction events as [|[payload kind] rest IH];
    intros st tr S F M N run.
  - exists st. cbn. rewrite app_nil_r. auto.
  - cbn [forallb] in A. apply andb_true_iff in A as [A1 A2].
    pose proof (streamable_eligible (payload, kind) st A1 F N) as C. cbn [fst snd] in C.
    pose proof (@deliver_on_session throws isSilentReplyText d payload kind st tr T s
                  S L TS C N) as D.
    cbv zeta in D. rewrite transport_ok in D.
    unfold run. cbn [List.map resolveAll fst snd List.filter].
    set (r := resolveDelta (streamedText st) (textOf payload)) in *.
    set (st1 := {| replyPlan := markSent (replyPlan st); streamSession := Some s;
                   streamFailed := streamFailed st; streamedText := snd r |}) in *.
    assert (N1 : nextThreadTs (replyPlan st1) = Some T).
    { unfold nextThreadTs in *. cbn. rewrite M in *. exact N. }
    cbn [deliverEvents]. unfold bind, tryCatch. rewrite D.
    destruct (truthy (fst r)); cbn [negb].
    + destruct (IH A2 st1 (tr ++ [StreamerAppend (streamer s) (fst r)])
                  eq_refl F M N1) as (st' & E & S' & F' & X').
      exists st'. rewrite E. cbn [List.map]. rewrite <- app_assoc.
      repeat split; assumption.
    + destruct (IH A2 st1 tr eq_refl F M N1) as (st' & E & S' & F' & X').
      exists st'. rewrite E. repeat split; assumption.
Qed.

(** X17.  A response whose events may all be streamed, under mode [all]
    and over a transport that does not fail, goes through one stream
    only: it is opened once, seeded with the first text, appended with
    the non-empty deltas of the later texts in order, and stopped once at
    the end; no discrete send is made. *)
Theorem X17_streamable_response_is_one_stream
    (first : ReplyPayload * ReplyDispatchKind)
    (rest : list (ReplyPayload * ReplyDispatchKind)) (generatorThrows : bool) :
  inputReplyToMode d = ModeAll ->
  threadIdentifier (messageThreadTs d) (messageOwnTs d) = Some T ->
  forallb (streamable isSilentReplyText) (first :: rest) = true ->
  let deltas :=
    fst (resolveAll [] (List.map (fun e => textOf (fst e)) (first :: rest))) in
  exists st',
    runResponse throws isSilentReplyText d (first :: rest) generatorThrows
    = (if generatorThrows then Throw else Normal tt, st',
       ChatStream (messageChannel d) (trim T) None
         :: List.map (StreamerAppend 0) (List.filter truthy deltas)
         ++ [StreamerStop 0 None])
    /\ streamSession st' = None
    /\ streamFailed st' = false.
Proof.
  intros M TI A deltas. destruct first as [payload kind].
  cbn [forallb] in A. apply andb_true_iff in A as [A1 A2].
  assert (N0 : nextThreadTs (replyPlan (initialState d)) = Some T).
  { unfold nextThreadTs. cbn. rewrite M. exact TI. }
  pose proof (streamable_eligible (payload, kind) (initialState d) A1 eq_refl N0) as C.
  cbn [fst snd] in C.
  pose proof (deliver_start throws isSilentReplyText d payload kind (initialState d)
                [] eq_refl C N0) as D.
  cbv zeta in D. rewrite !transport_ok in D.
  set (s := {| streamer := List.length (@nil TransportCall);
               channel := messageChannel d; threadTs := trim T;
               stopped := false |}) in *.
  set (st1 := {| replyPlan := markSent (replyPlan (initialState d));
                 streamSession := Some s;
                 streamFailed := streamFailed (initialState d);
                 streamedText := textOf payload |}) in *.
  assert (N1 : nextThreadTs (replyPlan st1) = Some T).
  { unfold nextThreadTs. cbn. rewrite M. exact TI. }
  destruct (@deliverEvents_on_session rest s A2 eq_refl eq_refl st1
              (([] ++ [ChatStream (messageChannel d) (trim T) None])
                 ++ [StreamerAppend (List.length (@nil TransportCall)) (textOf payload)])
              eq_refl eq_refl M N1)
    as (st2 & E & S2 & F2 & _).
  assert (E0 : deliverEvents throws isSilentReplyText d ((payload, kind) :: rest)
                 (initialState d) []
               = (Normal tt, st2,
                  (([] ++ [ChatStream (messageChannel d) (trim T) None])
                     ++ [StreamerAppend (List.length (@nil TransportCall)) (textOf payload)])
                  ++ List.map (StreamerAppend (streamer s))
                       (List.filter truthy
                          (fst (resolveAll (streamedText st1)
                                  (List.map (fun e => textOf (fst e)) rest)))))).
  { cbn [deliverEvents]. unfold bind, tryCatch. rewrite D. exact E. }
  destruct (dispatchResult_run throws isSilentReplyText d _ generatorThrows _ _ E0)
    as [_ Y].
  eexists. unfold runResponse. rewrite Y. split; [|split].
  - f_equal. unfold stopCalls. rewrite S2. cbn [stopped s].
    unfold deltas. cbn [List.map resolveAll fst snd].
    assert (TX : truthy (textOf payload) = true).
    { unfold streamable in A1. cbn [fst snd] in A1.
      rewrite !andb_true_iff in A1. apply A1. }
    rewrite !resolveDelta_no_previous. cbn [fst snd List.filter]. rewrite TX.
    cbn [List.map app List.length streamer s streamedText st1].
    reflexivity.
  - unfold afterStop. rewrite S2. reflexivity.
  - unfold afterStop, stopThrows. rewrite S2, F2. cbn. rewrite transport_ok.
    reflexivity.
Qed.

End OneStream.

Lemma X17_streamable_response_is_one_stream_witness :
  exists st',
    runResponse neverThrows tokenOnly (directMessage ModeAll (Some true))
      threeBlocks false
    = (Normal tt, st',
       [ChatStream (lit "C1") (lit "123") None;
        StreamerAppend 0 (lit "one");
        StreamerAppend 0 (lit " two");
        StreamerStop 0 None])
    /\ streamSession st' = None
    /\ streamFailed st' = false.
Proof.
  apply (@X17_streamable_response_is_one_stream neverThrows tokenOnly
           (directMessage ModeAll (Some true)) (lit "123")
           (fun _ _ => eq_refl) eq_refl eq_refl
           (textPayload (lit "one"), KindBlock)
           [(textPayload (lit "one two"), KindBlock);
            (textPayload (lit "one two"), KindFinal)]
           false eq_refl eq_refl eq_refl).
Defined.

(* ===================================================================== *)
(** ** Any use of one stream session *)
(* ===================================================================== *)

Section SessionRuns.

Variable throws : Trace -> TransportCall -> bool.

(** X18.  Whatever sequence of appends and stops its owner runs on a
    live session, and whatever the transport throws, the calls made are
    appends of non-empty text on the streamer of the session, followed by
    at most one stop call, after which nothing is called; the session is
    stopped exactly when that stop call was made. *)
Theorem X18_session_calls_end_with_one_stop (ops : list SessionOp) :
  forall (s : SlackStreamSession) (tr : Trace),
    stopped s = false ->
    exists (s' : SlackStreamSession) (appends stops : Trace),
      runSessionOps throws ops s tr = (Normal tt, s', tr ++ appends ++ stops)
      /\ Forall (fun c => exists t, c = StreamerAppend (streamer s) t /\ truthy t = true)
           appends
      /\ ((stops = [] /\ s' = s)
          \/ (exists x, stops = [StreamerStop (streamer s) x] /\ s' = markStopped s)).
Proof.
  induction ops as [|op rest IH]; intros s tr L.
  - exists s, [], []. cbn. rewrite app_nil_r. auto.
  - cbn [runSessionOps]. unfold bind, tryCatch. destruct op as [t|x]; cbn [runSessionOp].
    + destruct (truthy t) eqn:TT.
      * rewrite (appendSlackStream_live throws t s tr TT L).
        destruct (IH s (tr ++ [StreamerAppend (streamer s) t]) L)
          as (s' & appends & stops & E & FA & K).
        exists s', (StreamerAppend (streamer s) t :: appends), stops.
        destruct (throws tr (StreamerAppend (streamer s) t)); cbn [ret];
          rewrite E, <- app_assoc; (split; [reflexivity|]);
          (split; [constructor; [exists t; auto | exact FA] | exact K]).
      * assert (E0 : appendSlackStream throws t s tr = (Normal tt, s, tr)).
        { destruct t; [apply appendSlackStream_empty | discriminate TT]. }
        rewrite E0. destruct (IH s tr L) as (s' & appends & stops & E & FA & K).
        exists s', appends, stops. auto.
    + rewrite (stopSlackStream_live throws x s tr L).
      exists (markStopped s), [], [StreamerStop (streamer s) (finalTextOf x)].
      assert (R : forall tr', runSessionOps throws rest (markStopped s) tr'
                              = (Normal tt, markStopped s, tr')).
      { intros tr'. apply runSessionOps_stopped. reflexivity. }
      destruct (throws tr (StreamerStop (streamer s) (finalTextOf x))); cbn [ret];
        rewrite R; (split; [reflexivity|]); (split; [constructor|]);
        right; exists (finalTextOf x); auto.
Qed.

End SessionRuns.

Lemma X18_session_calls_end_with_one_stop_witness :
  exists (s' : SlackStreamSession) (appends stops : Trace),
    runSessionOps firstAppendThrows
      [OpAppend (lit "a"); OpAppend []; OpAppend (lit "b"); OpStop None;
       OpAppend (lit "late"); OpStop (Some (lit "again"))]
      liveSession []
    = (Normal tt, s', [] ++ appends ++ stops)
    /\ Forall (fun c => exists t, c = StreamerAppend 0 t /\ truthy t = true) appends
    /\ ((stops = [] /\ s' = liveSession)
        \/ (exists x, stops = [StreamerStop 0 x] /\ s' = markStopped liveSession)).
Proof.
  apply (@X18_session_calls_end_with_one_stop firstAppendThrows
           [OpAppend (lit "a"); OpAppend []; OpAppend (lit "b"); OpStop None;
            OpAppend (lit "late"); OpStop (Some (lit "again"))]
           liveSession []).
  reflexivity.
Defined.

(* ===================================================================== *)
(** ** The trace properties, on the scenarios *)
(* ===================================================================== *)

Lemma X11_no_use_after_stop_witness :
  usedIn 0 [] = false
  /\ exists ch ts bs,
       nth_error [ChatStream (lit "C1") (lit "123") None] 0
       = Some (ChatStream ch ts bs).
Proof.
  pose proof (@X11_no_use_after_stop neverThrows tokenOnly
                (directMessage ModeAll (Some true)) twoBlocks false) as [A B].
  split.
  - apply (A [ChatStream (lit "C1") (lit "123") None;
              StreamerAppend 0 (lit "first block");
              StreamerAppend 0 (LF :: lit "second block")] [] 0 None).
    reflexivity.
  - apply (B [ChatStream (lit "C1") (lit "123") None]
             [StreamerAppend 0 (LF :: lit "second block"); StreamerStop 0 None]
             (StreamerAppend 0 (lit "first block")) 0).
    + reflexivity.
    + reflexivity.
Defined.

Lemma X12_accepted_streams_are_stopped_witness :
  stoppedIn 0 [StreamerAppend 0 (LF :: lit "second block"); StreamerStop 0 None] = true.
Proof.
  apply (@X12_accepted_streams_are_stopped neverThrows tokenOnly
           (directMessage ModeAll (Some true)) twoBlocks false
           [ChatStream (lit "C1") (lit "123") None]
           [StreamerAppend 0 (LF :: lit "second block"); StreamerStop 0 None]
           0 (lit "first block")).
  - reflexivity.
  - reflexivity.
Defined.

Lemma X14_typing_flag_tracks_status_witness :
  fst (runTyping (fun _ _ => true) (lit "C1") None [true; false; false] false [])
  = typingShown
      (snd (runTyping (fun _ _ => true) (lit "C1") None [true; false; false] false []))
  /\ typingShown [SetSlackThreadStatus (lit "C1") None (lit "is typing...")] = true.
Proof.
  pose proof (@X14_typing_flag_tracks_status (fun _ _ => true) (lit "C1") None
                [true; false; false]) as (A & B & _).
  split; [exact A|].
  apply (B [SetSlackThreadStatus (lit "C1") None (lit "is typing...")]
           (SetSlackThreadStatus (lit "C1") None []) []).
  - reflexivity.
  - reflexivity.
Defined.
